(** * Koyeb keep-alive script (koyeb.py): a shallow embedding

    The script is sequential Python over two HTTP APIs.  Its effects are
    modelled as an append-only trace of observable events (log lines, the
    HTTP GET of a token check, the HTTP POST of a Telegram message,
    [time.sleep], and the connection [requests] opens for a GET it then
    fails to send); Python exceptions are an error result carrying
    [str(e)].  Everything the script reads from outside (the process
    environment, the answers of the network, the system clock) comes from a
    [world]; the answer to a request may depend on the whole trace before it.

    Strings are byte strings: the UTF-8 encoding of the Python [str], where
    a lone surrogate (from a JSON escape such as "\ud800", or from the
    surrogateescape decoding [os.getenv] applies to bytes that are not
    UTF-8) is held as the three bytes ED A0 80 - ED BF BF of the
    generalised encoding.  Rocq string literals do not interpret backslash
    escapes, so the newline of the source is the constant [nl], and the
    literal "\x" is a backslash followed by x. *)

From Stdlib Require Import String Ascii List ZArith Bool Lia.
Import ListNotations.
Open Scope string_scope.
Open Scope Z_scope.

(** ** Python values produced by [json.loads] *)

Set Warnings "-register-all".

Inductive json : Type :=
| JNull
| JBool (b : bool)
| JInt (z : Z)
| JFloat (repr : string)   (* a float, with its [repr] ("1.5", "0.0", "-0.0", "inf", "nan") *)
| JStr (s : string)
| JList (l : list json)
| JDict (kvs : list (string * json)).  (* a dict: distinct keys, insertion order *)

(** What [json.loads] does with a string: it returns a value, raises
    [json.JSONDecodeError], or raises another exception that the script
    does not catch ([RecursionError] on deep nesting, the [ValueError] of
    the integer digit limit), with its [str]. *)
Inductive loads_outcome : Type :=
| Loaded (v : json)
| DecodeError
| LoadsRaises (msg : string).

Definition py_type_name (v : json) : string :=
  match v with
  | JNull => "NoneType"
  | JBool _ => "bool"
  | JInt _ => "int"
  | JFloat _ => "float"
  | JStr _ => "str"
  | JList _ => "list"
  | JDict _ => "dict"
  end.

(** Python truthiness ([if not x]); a float is false exactly at zero,
    whose [repr] is "0.0" or "-0.0". *)
Definition truthy (v : json) : bool :=
  match v with
  | JNull => false
  | JBool b => b
  | JInt z => negb (z =? 0)
  | JFloat r => negb (String.eqb r "0.0" || String.eqb r "-0.0")
  | JStr s => negb (String.eqb s "")
  | JList l => match l with [] => false | _ => true end
  | JDict kvs => match kvs with [] => false | _ => true end
  end.

(** [a or b] *)
Definition py_or (a b : json) : json := if truthy a then a else b.

(** [d.get(k, default)] *)
Fixpoint dict_get (kvs : list (string * json)) (k : string) (default : json) : json :=
  match kvs with
  | [] => default
  | (k', v) :: rest => if String.eqb k' k then v else dict_get rest k default
  end.

(** Newline character and [sep.join(l)]. *)
Definition nl : string := String (ascii_of_nat 10) EmptyString.

Fixpoint join (sep : string) (l : list string) : string :=
  match l with
  | [] => ""
  | [x] => x
  | x :: rest => x ++ sep ++ join sep rest
  end.

(** Decimal rendering of integers ([str(n)], [%Y]). *)
Definition digit (n : Z) : string := String (ascii_of_nat (48 + Z.to_nat n)) EmptyString.

Fixpoint dec_fuel (fuel : nat) (n : Z) : string :=
  match fuel with
  | O => ""
  | S f => if n <? 10 then digit n else dec_fuel f (n / 10) ++ digit (n mod 10)
  end.

Definition dec_nonneg (n : Z) : string := dec_fuel (S (Z.to_nat (Z.log2 n))) n.

Definition dec (n : Z) : string :=
  if n <? 0 then "-" ++ dec_nonneg (- n) else dec_nonneg n.

(** [%02d] for a value in [0, 99] (months, days, hours, minutes). *)
Definition pad2 (n : Z) : string := digit (n / 10) ++ digit (n mod 10).

(** Lower-case hexadecimal on [k] digits ([%02x], [%04x], [%08x]). *)
Definition hex_digit (n : Z) : string := substring (Z.to_nat n) 1 "0123456789abcdef".

Fixpoint hex_fixed (k : nat) (n : Z) : string :=
  match k with
  | O => ""
  | S k' => hex_fixed k' (n / 16) ++ hex_digit (n mod 16)
  end.

(** ** Characters of a [str] *)

Definition byte (a : ascii) : Z := Z.of_nat (nat_of_ascii a).

(** The bytes of each character, in order: the lead byte gives the length
    of the sequence (1 below C0, 2 below E0, 3 below F0, else 4). *)
Fixpoint utf8_chars (s : string) : list string :=
  match s with
  | EmptyString => []
  | String a r =>
      if byte a <? 192 then String a EmptyString :: utf8_chars r
      else
        match r with
        | EmptyString => [String a EmptyString]
        | String a1 r1 =>
            if byte a <? 224 then String a (String a1 EmptyString) :: utf8_chars r1
            else
              match r1 with
              | EmptyString => [String a (String a1 EmptyString)]
              | String a2 r2 =>
                  if byte a <? 240 then
                    String a (String a1 (String a2 EmptyString)) :: utf8_chars r2
                  else
                    match r2 with
                    | EmptyString => [String a (String a1 (String a2 EmptyString))]
                    | String a3 r3 =>
                        String a (String a1 (String a2 (String a3 EmptyString))) :: utf8_chars r3
                    end
              end
        end
  end.

(** The code point of one character's bytes. *)
Definition decode_char (ch : string) : Z :=
  match ch with
  | String a EmptyString => byte a
  | String a (String a1 EmptyString) =>
      Z.lor (Z.shiftl (Z.land (byte a) 31) 6) (Z.land (byte a1) 63)
  | String a (String a1 (String a2 EmptyString)) =>
      Z.lor (Z.shiftl (Z.land (byte a) 15) 12)
        (Z.lor (Z.shiftl (Z.land (byte a1) 63) 6) (Z.land (byte a2) 63))
  | String a (String a1 (String a2 (String a3 EmptyString))) =>
      Z.lor (Z.shiftl (Z.land (byte a) 7) 18)
        (Z.lor (Z.shiftl (Z.land (byte a1) 63) 12)
           (Z.lor (Z.shiftl (Z.land (byte a2) 63) 6) (Z.land (byte a3) 63)))
  | _ => 0
  end.

(** The code points of a [str], as Python indexes them. *)
Definition code_points (s : string) : list Z := map decode_char (utf8_chars s).

(** [Py_UNICODE_ISSPACE]: the whitespace of [str.strip()], [str.isspace()]
    and of [\s] in a [str] regular expression. *)
Definition is_space (c : Z) : bool :=
  ((9 <=? c) && (c <=? 13)) || ((28 <=? c) && (c <=? 32)) || (c =? 133) || (c =? 160)
  || (c =? 5760) || ((8192 <=? c) && (c <=? 8202)) || (c =? 8232) || (c =? 8233)
  || (c =? 8239) || (c =? 8287) || (c =? 12288).

Fixpoint drop_space (l : list string) : list string :=
  match l with
  | [] => []
  | ch :: r => if is_space (decode_char ch) then drop_space r else l
  end.

(** [str.strip()]: drop the whitespace characters at both ends. *)
Definition strip (s : string) : string :=
  String.concat "" (rev (drop_space (rev (drop_space (utf8_chars s))))).

Definition is_surrogate (c : Z) : bool := (55296 <=? c) && (c <=? 57343).

(** ** Encoding errors

    [str.encode] with the strict handler raises [UnicodeEncodeError] at
    the first maximal run of characters it cannot encode; its [str] names
    the codec, the position(s) in code points and the reason. *)

Fixpoint run_length (bad : Z -> bool) (l : list Z) : nat :=
  match l with
  | [] => O
  | c :: r => if bad c then S (run_length bad r) else O
  end.

(** Index of the first bad character, the character, and the length of
    the run of bad characters it starts. *)
Fixpoint first_bad (bad : Z -> bool) (i : nat) (l : list Z) : option (nat * Z * nat) :=
  match l with
  | [] => None
  | c :: r => if bad c then Some (i, c, S (run_length bad r)) else first_bad bad (S i) r
  end.

(** The escape of one character in the message: \xNN, \uNNNN or \UNNNNNNNN. *)
Definition char_escape (c : Z) : string :=
  if c <=? 255 then "\x" ++ hex_fixed 2 c
  else if c <=? 65535 then "\u" ++ hex_fixed 4 c
  else "\U" ++ hex_fixed 8 c.

Definition encode_error (encoding reason : string) (bad : Z -> bool) (s : string)
  : option string :=
  match first_bad bad 0 (code_points s) with
  | None => None
  | Some (i, c, S O) =>
      Some ("'" ++ encoding ++ "' codec can't encode character '" ++ char_escape c
            ++ "' in position " ++ dec (Z.of_nat i) ++ ": " ++ reason)
  | Some (i, _, n) =>
      Some ("'" ++ encoding ++ "' codec can't encode characters in position "
            ++ dec (Z.of_nat i) ++ "-" ++ dec (Z.of_nat (i + n - 1)) ++ ": " ++ reason)
  end.

(** [s.encode("latin-1")] *)
Definition latin1_error (s : string) : option string :=
  encode_error "latin-1" "ordinal not in range(256)" (fun c => 256 <=? c) s.

(** [s.encode("utf-8")]: only lone surrogates fail. *)
Definition utf8_error (s : string) : option string :=
  encode_error "utf-8" "surrogates not allowed" is_surrogate s.

(** ** Header values and form data in [requests] and [http.client] *)

(** [requests]' header check ([check_header_validity]) matches a [str]
    value against [^\S[^\r\n]*$|^$]; [$] also matches before a final
    newline. *)
Fixpoint tail_ok (l : list Z) : bool :=
  match l with
  | [] => true
  | [c] => negb (c =? 13)
  | c :: r => negb ((c =? 10) || (c =? 13)) && tail_ok r
  end.

Definition header_value_valid (v : string) : bool :=
  match code_points v with
  | [] => true
  | [10] => true
  | c :: r => negb (is_space c) && tail_ok r
  end.

(** [http.client]'s [_is_illegal_header_value]:
    [\n(?![ \t])|\r(?![ \t\n])] on the encoded bytes. *)
Fixpoint illegal_header_value (l : list Z) : bool :=
  match l with
  | [] => false
  | c :: r =>
      let next_in := fun xs => match r with n :: _ => existsb (Z.eqb n) xs | [] => false end in
      ((c =? 10) && negb (next_in [32; 9])) || ((c =? 13) && negb (next_in [32; 9; 10]))
      || illegal_header_value r
  end.

(** [repr()] of a [bytes] value. *)
Definition chr (c : Z) : string := String (ascii_of_nat (Z.to_nat c)) EmptyString.

Definition byte_escape (q c : Z) : string :=
  if (c =? q) || (c =? 92) then "\" ++ chr c
  else if c =? 9 then "\t"
  else if c =? 10 then "\n"
  else if c =? 13 then "\r"
  else if (c <? 32) || (127 <=? c) then "\x" ++ hex_fixed 2 c
  else chr c.

Definition bytes_repr (bs : list Z) : string :=
  let q := if existsb (Z.eqb 39) bs && negb (existsb (Z.eqb 34) bs) then 34 else 39 in
  "b" ++ chr q ++ String.concat "" (map (byte_escape q) bs) ++ chr q.

(** [HTTPConnection.putheader] on a [str] value: [value.encode("latin-1")],
    then the illegal-value check. *)
Definition putheader_error (v : string) : option string :=
  match latin1_error v with
  | Some e => Some e
  | None =>
      if illegal_header_value (code_points v)
      then Some ("Invalid header value " ++ bytes_repr (code_points v))
      else None
  end.

(** [requests]' [_encode_params] on a dict of [str]: each key and value is
    encoded to UTF-8, in order, before anything is sent. *)
Fixpoint form_error (data : list (string * string)) : option string :=
  match data with
  | [] => None
  | (k, v) :: rest =>
      match utf8_error k with
      | Some e => Some e
      | None =>
          match utf8_error v with
          | Some e => Some e
          | None => form_error rest
          end
      end
  end.

(** ** Calendar: [datetime.utcnow() + timedelta(hours=8)] and [strftime]

    The clock is Unix time in whole seconds; [datetime] arithmetic is the
    proleptic Gregorian calendar, computed from the day count with the
    usual civil-from-days algorithm. *)

Record civil : Type := mk_civil {
  c_year : Z; c_month : Z; c_day : Z; c_hour : Z; c_minute : Z }.

(** Year of the era, month and day of the [doe]-th day of a 400-year era
    that starts on March 1st. *)
Definition civil_of_doe (doe : Z) : Z * Z * Z :=
  let yoe := (doe - doe / 1460 + doe / 36524 - doe / 146096) / 365 in
  let doy := doe - (365 * yoe + yoe / 4 - yoe / 100) in
  let mp := (5 * doy + 2) / 153 in
  let d := doy - (153 * mp + 2) / 5 + 1 in
  let m := if mp <? 10 then mp + 3 else mp - 9 in
  (yoe, m, d).

Definition civil_of_unix (t : Z) : civil :=
  let days := t / 86400 in
  let secs := t mod 86400 in
  let z := days + 719468 in
  let era := z / 146097 in
  let doe := z - era * 146097 in
  let '(yoe, m, d) := civil_of_doe doe in
  let y := yoe + era * 400 + (if m <=? 2 then 1 else 0) in
  mk_civil y m d (secs / 3600) ((secs mod 3600) / 60).

(** [strftime("%Y-%m-%d %H:%M")] *)
Definition strftime_ymdhm (c : civil) : string :=
  dec c.(c_year) ++ "-" ++ pad2 c.(c_month) ++ "-" ++ pad2 c.(c_day) ++ " "
  ++ pad2 c.(c_hour) ++ ":" ++ pad2 c.(c_minute).

(** ** Observable events and the answers of the network *)

Inductive level : Type := Info | Warning | Error.

Inductive event : Type :=
| ELog (lv : level) (msg : string)
| EGet (url : string) (headers : list (string * string)) (timeout : Z)
| EPost (url : string) (data : list (string * string)) (timeout : Z)
| EConnect (url : string) (timeout : Z)   (* connection opened for a GET never sent *)
| ESleep (secs : Z).

(** What the network gives back for a request (or, after [EConnect], for
    the connection attempt): a response (status code, reason, final url;
    after [EConnect]: the connection is up), a [requests.Timeout], or
    another [requests.RequestException], each exception with its [str]. *)
Inductive http_outcome : Type :=
| HResp (code : Z) (reason url : string)
| HTimeout (msg : string)
| HReqErr (msg : string).

(** [Response.raise_for_status()]: the [HTTPError] text for 4xx and 5xx. *)
Definition http_error_msg (code : Z) (reason url : string) : option string :=
  if (400 <=? code) && (code <? 500) then
    Some (dec code ++ " Client Error: " ++ reason ++ " for url: " ++ url)
  else if (500 <=? code) && (code <? 600) then
    Some (dec code ++ " Server Error: " ++ reason ++ " for url: " ++ url)
  else None.

Record world : Type := mk_world {
  getenv : string -> option string;       (* os.getenv *)
  net : list event -> http_outcome;        (* answer to the request just issued *)
  clock : Z                                (* datetime.utcnow(), Unix seconds *)
}.

(** [str()] of a list or dict and [repr()] of a [str]: texts of the Python
    runtime that only appear inside messages. *)
Record py_texts : Type := mk_py_texts {
  str_container : json -> string;
  str_repr : string -> string
}.

(** ** The trace-and-exception monad *)

Inductive result (A : Type) : Type :=
| Ok (a : A)
| Exc (msg : string).
Arguments Ok {A} a.
Arguments Exc {A} msg.

(** A computation gets the events so far and returns the events it adds. *)
Definition M (A : Type) : Type := list event -> list event * result A.

Definition ret {A} (a : A) : M A := fun _ => ([], Ok a).

Definition bind {A B} (m : M A) (f : A -> M B) : M B :=
  fun h =>
    let '(d1, r1) := m h in
    match r1 with
    | Ok a => let '(d2, r2) := f a (h ++ d1)%list in ((d1 ++ d2)%list, r2)
    | Exc e => (d1, Exc e)
    end.

Notation "x <- m ;; k" := (bind m (fun x => k))
  (at level 61, m at next level, right associativity).
Notation "' p <- m ;; k" := (bind m (fun x => match x with p => k end))
  (at level 61, p pattern, m at next level, right associativity).
Notation "m ;; k" := (bind m (fun _ => k)) (at level 61, right associativity).

Definition emit (e : event) : M unit := fun _ => ([e], Ok tt).

Definition raise {A} (msg : string) : M A := fun _ => ([], Exc msg).

Definition of_result {A} (r : result A) : M A := fun _ => ([], r).

(** [try: m except Exception as e: handler(str(e))] *)
Definition try_except {A} (m : M A) (handler : string -> M A) : M A :=
  fun h =>
    let '(d1, r1) := m h in
    match r1 with
    | Ok a => (d1, Ok a)
    | Exc e => let '(d2, r2) := handler e (h ++ d1)%list in ((d1 ++ d2)%list, r2)
    end.

(** ** The script *)

Section Script.

Variable json_loads : string -> loads_outcome.
Variable rt : py_texts.
Variable w : world.

(** [str(v)] / [f"{v}"] *)
Definition py_str (v : json) : string :=
  match v with
  | JStr s => s
  | JNull => "None"
  | JBool true => "True"
  | JBool false => "False"
  | JInt z => dec z
  | JFloat r => r
  | JList _ | JDict _ => str_container rt v
  end.

Definition attr_error (v : json) (attr : string) : string :=
  "'" ++ py_type_name v ++ "' object has no attribute '" ++ attr ++ "'".

(** The answer of the network to the request that was just emitted. *)
Definition net_resp : M http_outcome := fun h => ([], Ok (net w h)).

(** [validate_env_variables()] *)
Definition validate_env_variables : M json :=
  match getenv w "KOYEB_ACCOUNTS" with
  | None => raise "❌ KOYEB_ACCOUNTS 环境变量未设置或格式错误"
  | Some koyeb_accounts_env =>
      if String.eqb koyeb_accounts_env "" then
        raise "❌ KOYEB_ACCOUNTS 环境变量未设置或格式错误"
      else
        match json_loads koyeb_accounts_env with
        | Loaded v => ret v
        | DecodeError => raise "❌ KOYEB_ACCOUNTS JSON 格式无效"
        | LoadsRaises e => raise e
        end
  end.

Definition tg_skip_warning : string :=
  "⚠️ TG_BOT_TOKEN 或 TG_CHAT_ID 未设置，跳过 Telegram 通知".

(** [send_tg_message(message)]: [requests.post] encodes the form first; a
    [UnicodeEncodeError] there is not a [RequestException] and escapes.
    The URL never fails: [urllib3] percent-encodes it with surrogatepass. *)
Definition send_tg_message (message : string) : M unit :=
  let warn := emit (ELog Warning tg_skip_warning) in
  match getenv w "TG_BOT_TOKEN", getenv w "TG_CHAT_ID" with
  | Some bot_token, Some chat_id =>
      if String.eqb bot_token "" || String.eqb chat_id "" then warn
      else
        let url := "https://api.telegram.org/bot" ++ bot_token ++ "/sendMessage" in
        let data := [("chat_id", chat_id); ("text", message); ("parse_mode", "Markdown")] in
        match form_error data with
        | Some e => raise e
        | None =>
            emit (EPost url data 30) ;;
            r <- net_resp ;;
            let failure := fun e => emit (ELog Error ("❌ 发送 Telegram 消息失败: " ++ e)) in
            match r with
            | HResp code reason rurl =>
                match http_error_msg code reason rurl with
                | None => emit (ELog Info "✅ Telegram 消息发送成功")
                | Some e => failure e
                end
            | HTimeout e => failure e
            | HReqErr e => failure e
            end
        end
  | _, _ => warn
  end.

Definition koyeb_url : string := "https://app.koyeb.com/v1/apps".

(** The [InvalidHeader] text of [requests] for a header value. *)
Definition invalid_header_msg (v : string) : string :=
  "Invalid leading whitespace, reserved character(s), or return character(s) in header value: "
  ++ str_repr rt v.

(** [check_koyeb_with_token(name, token)].  [requests.get] first checks the
    header values ([InvalidHeader], a [RequestException], before any
    network activity); [urllib3] then opens the connection and only then
    has [http.client] encode the headers to latin-1: that [ValueError]
    ([UnicodeEncodeError], or the illegal-value one) is not a
    [RequestException] and escapes. *)
Definition check_koyeb_with_token (name token : string) : M (bool * string) :=
  if String.eqb token "" then ret (false, "Token 为空")
  else
    let headers := [("Authorization", "Bearer " ++ token);
                    ("Accept", "application/json");
                    ("User-Agent", "KoyebKeepAliveScript/1.0")] in
    if negb (header_value_valid ("Bearer " ++ token)) then
      ret (false, invalid_header_msg ("Bearer " ++ token))
    else
      match putheader_error ("Bearer " ++ token) with
      | Some err =>
          emit (EConnect koyeb_url 30) ;;
          r <- net_resp ;;
          match r with
          | HResp _ _ _ => raise err
          | HTimeout _ => ret (false, "请求超时")
          | HReqErr e => ret (false, e)
          end
      | None =>
          emit (EGet koyeb_url headers 30) ;;
          r <- net_resp ;;
          match r with
          | HResp code reason rurl =>
              match http_error_msg code reason rurl with
              | None => ret (true, "Token 校验成功")
              | Some e => ret (false, e)
              end
          | HTimeout _ => ret (false, "请求超时")
          | HReqErr e => ret (false, e)
          end
      end.

(** The display name: [account.get("name") or account.get("email") or "未命名账号"]. *)
Definition account_name (kvs : list (string * json)) : string :=
  py_str (py_or (dict_get kvs "name" JNull)
            (py_or (dict_get kvs "email" JNull) (JStr "未命名账号"))).

Definition skipped_entry (name : string) : string :=
  "⚠️ 账户: " ++ name ++ nl ++ "Token 未配置，跳过".
Definition success_entry (name : string) : string :=
  "✅ 账户: " ++ name ++ " Token 校验成功".
Definition failure_entry (name message : string) : string :=
  "❌ 账户: " ++ name ++ " Token 校验失败 | 原因: " ++ message.

(** One iteration of the [for account in koyeb_accounts] loop; returns the
    entry appended to [messages]. *)
Definition process_account (account : json) : M string :=
  match account with
  | JDict kvs =>
      let name := account_name kvs in
      match dict_get kvs "token" (JStr "") with
      | JStr t =>
          let token := strip t in
          if String.eqb token "" then
            emit (ELog Warning ("⚠️ 账户 " ++ name ++ " 没有配置 token，跳过")) ;;
            ret (skipped_entry name)
          else
            emit (ELog Info ("🔍 正在检查账户: " ++ name)) ;;
            '(success, message) <- check_koyeb_with_token name token ;;
            let result := if success then success_entry name
                          else failure_entry name message in
            emit (ESleep 5) ;;
            ret result
      | v => raise (attr_error v "strip")
      end
  | v => raise (attr_error v "get")
  end.

Fixpoint run_accounts (accounts : list json) : M (list string) :=
  match accounts with
  | [] => ret []
  | account :: rest =>
      m <- process_account account ;;
      ms <- run_accounts rest ;;
      ret (m :: ms)
  end.

(** [iter(v)] followed by [list(...)]: what [for] walks over (the keys of
    a dict, the characters of a str). *)
Definition py_iter (v : json) : result (list json) :=
  match v with
  | JList l => Ok l
  | JDict kvs => Ok (map (fun kv => JStr (fst kv)) kvs)
  | JStr s => Ok (map JStr (utf8_chars s))
  | _ => Exc ("'" ++ py_type_name v ++ "' object is not iterable")
  end.

Definition current_time : string := strftime_ymdhm (civil_of_unix (clock w + 8 * 3600)).

Definition build_summary (time : string) (messages : list string) : string :=
  "⏰ 北京时间: " ++ time ++ nl ++ nl ++ join nl messages ++ nl ++ nl ++ "✅ 任务执行完成".

Definition done_log : string := "📝 任务完成，发送 Telegram 通知".

(** The body of the [try] block of [main()]. *)
Definition main_body : M unit :=
  koyeb_accounts <- validate_env_variables ;;
  if negb (truthy koyeb_accounts) then raise "❌ 没有找到有效的 Koyeb 账户信息"
  else
    accounts <- of_result (py_iter koyeb_accounts) ;;
    messages <- run_accounts accounts ;;
    let summary := build_summary current_time messages in
    emit (ELog Info done_log) ;;
    send_tg_message summary.

Definition error_message (e : string) : string := "❌ 脚本执行出错: " ++ e.

(** [main()]: the handler's own [send_tg_message] is outside the [try]. *)
Definition main : M unit :=
  try_except main_body
    (fun e => emit (ELog Error (error_message e)) ;; send_tg_message (error_message e)).

End Script.

(** ** Observations on traces *)

Definition is_post (e : event) : bool :=
  match e with EPost _ _ _ => true | _ => false end.

Definition is_get (e : event) : bool :=
  match e with EGet _ _ _ => true | _ => false end.

(** A request to Koyeb: a GET, or a connection for a GET never sent. *)
Definition is_request (e : event) : bool :=
  match e with EGet _ _ _ | EConnect _ _ => true | _ => false end.

Definition is_sleep (e : event) : bool :=
  match e with ESleep _ => true | _ => false end.

(** The log line "🔍 正在检查账户: <name>" that opens the check of an account. *)
Definition is_check (e : event) : bool :=
  match e with
  | ELog Info m => String.prefix "🔍 正在检查账户: " m
  | _ => false
  end.

Definition count_posts (tr : list event) : nat := length (filter is_post tr).

(** The [text] of every Telegram message actually POSTed. *)
Definition posted_texts (tr : list event) : list string :=
  flat_map (fun e => match e with
                     | EPost _ data _ =>
                         flat_map (fun kv => if String.eqb (fst kv) "text" then [snd kv] else []) data
                     | _ => []
                     end) tr.

(** The durations of the [time.sleep] calls. *)
Definition sleeps (tr : list event) : list Z :=
  flat_map (fun e => match e with ESleep s => [s] | _ => [] end) tr.

(** Both Telegram variables are set and non-empty. *)
Definition tg_configured (w : world) : bool :=
  match getenv w "TG_BOT_TOKEN", getenv w "TG_CHAT_ID" with
  | Some b, Some c => negb (String.eqb b "") && negb (String.eqb c "")
  | _, _ => false
  end.

(** A string that encodes to UTF-8 (no lone surrogate). *)
Definition utf8_ok (s : string) : bool :=
  match utf8_error s with None => true | Some _ => false end.

Definition tg_chat_id (w : world) : string :=
  match getenv w "TG_CHAT_ID" with Some c => c | None => "" end.

(** Telegram is configured and both the chat id and the message encode to
    UTF-8. *)
Definition tg_sendable (w : world) (msg : string) : bool :=
  tg_configured w && utf8_ok (tg_chat_id w) && utf8_ok msg.

Definition tg_url (bot_token : string) : string :=
  "https://api.telegram.org/bot" ++ bot_token ++ "/sendMessage".

Definition tg_form (chat_id message : string) : list (string * string) :=
  [("chat_id", chat_id); ("text", message); ("parse_mode", "Markdown")].

(** Splitting a string at its newlines ([str.split("\n")]). *)
Fixpoint lines_aux (cur : string) (s : string) : list string :=
  match s with
  | EmptyString => [cur]
  | String c r =>
      if Ascii.eqb c (ascii_of_nat 10) then cur :: lines_aux EmptyString r
      else lines_aux (cur ++ String c EmptyString) r
  end.

Definition lines (s : string) : list string := lines_aux EmptyString s.

(** Every character is whitespace for [str.strip()] ([str.isspace()], or
    the empty string). *)
Definition all_space (s : string) : bool :=
  forallb (fun ch => is_space (decode_char ch)) (utf8_chars s).

(** Value of a string of decimal digits. *)
Fixpoint dec_value_aux (acc : Z) (s : string) : Z :=
  match s with
  | EmptyString => acc
  | String c r => dec_value_aux (10 * acc + (Z.of_nat (nat_of_ascii c) - 48)) r
  end.

Definition dec_value (s : string) : Z := dec_value_aux 0 s.

(** No newline character. *)
Fixpoint no_nl (s : string) : bool :=
  match s with
  | EmptyString => true
  | String c r => negb (Ascii.eqb c (ascii_of_nat 10)) && no_nl r
  end.

(** Only decimal digits. *)
Fixpoint all_digits (s : string) : bool :=
  match s with
  | EmptyString => true
  | String c r =>
      (Nat.leb 48 (nat_of_ascii c) && Nat.leb (nat_of_ascii c) 57) && all_digits r
  end.

(** [f lo], [f (lo+1)], ..., [f (lo+n-1)] all hold. *)
Fixpoint check_range (f : Z -> bool) (lo : Z) (n : nat) : bool :=
  match n with
  | O => true
  | S k => if f lo then check_range f (lo + 1) k else false
  end.

Definition doe_ok (doe : Z) : bool :=
  let '(_, m, d) := civil_of_doe doe in (1 <=? m) && (m <=? 12) && (1 <=? d) && (d <=? 31).

Definition year_ok (y : Z) : bool :=
  Nat.eqb (String.length (dec y)) 4 && all_digits (dec y) && (dec_value (dec y) =? y).

Definition two_ok (n : Z) : bool :=
  Nat.eqb (String.length (pad2 n)) 2 && all_digits (pad2 n) && (dec_value (pad2 n) =? n).

(** A computation all of whose events satisfy [Q]. *)
Definition Emits (Q : event -> Prop) {A} (m : M A) : Prop :=
  forall h, Forall Q (fst (m h)).

Definition koyeb_headers (token : string) : list (string * string) :=
  [("Authorization", "Bearer " ++ token); ("Accept", "application/json");
   ("User-Agent", "KoyebKeepAliveScript/1.0")].

(** The header value of a token passes [requests]' check and is sent by
    [http.client]: the GET of the check goes out. *)
Definition header_ok (token : string) : bool :=
  header_value_valid ("Bearer " ++ token) &&
  match putheader_error ("Bearer " ++ token) with None => true | Some _ => false end.

(** Each completed loop yields one entry per account, in order, each
    naming its account. *)
Definition entry_for (rt : py_texts) (account : json) (m : string) : Prop :=
  exists kvs, account = JDict kvs /\
    (m = skipped_entry (account_name rt kvs) \/ m = success_entry (account_name rt kvs) \/
     exists reason, m = failure_entry (account_name rt kvs) reason).

(** Concrete environments. *)
Fixpoint env_from (l : list (string * string)) (k : string) : option string :=
  match l with
  | [] => None
  | (k', v) :: rest => if String.eqb k' k then Some v else env_from rest k
  end.

Definition net_ok (_ : list event) : http_outcome := HResp 200 "OK" koyeb_url.

Definition tg_env : list (string * string) := [("TG_BOT_TOKEN", "123:abc"); ("TG_CHAT_ID", "42")].

(** Runtime texts for concrete runs. *)
Definition rt0 : py_texts := mk_py_texts (fun _ => "[...]") (fun s => "'" ++ s ++ "'").

(** The lone surrogate U+DCFF, as [os.getenv] gives the byte FF. *)
Definition lone_surrogate : string :=
  String (ascii_of_nat 237) (String (ascii_of_nat 179) (String (ascii_of_nat 191) EmptyString)).

(** Neither a check line, nor a sleep, nor a request to Koyeb. *)
Definition quiet (e : event) : Prop :=
  is_check e = false /\ is_sleep e = false /\ is_request e = false.

(** The pacing of a trace: each check line is followed by at most one
    request and then [time.sleep(5)], or by a connection after which the
    run only logs and notifies; every other event is quiet. *)
Inductive Paced : list event -> Prop :=
| paced_nil : Paced []
| paced_bare c rest :
    is_check c = true -> Paced rest -> Paced (c :: ESleep 5 :: rest)
| paced_req c r rest :
    is_check c = true -> is_request r = true -> Paced rest -> Paced (c :: r :: ESleep 5 :: rest)
| paced_abort c u o rest :
    is_check c = true -> Forall quiet rest -> Paced (c :: EConnect u o :: rest)
| paced_other e rest : quiet e -> Paced rest -> Paced (e :: rest).

(** The stripped tokens the loop checks, in account order. *)
Fixpoint checked_tokens (accounts : list json) : list string :=
  match accounts with
  | [] => []
  | JDict kvs :: rest =>
      match dict_get kvs "token" (JStr "") with
      | JStr t =>
          if String.eqb (strip t) "" then checked_tokens rest
          else strip t :: checked_tokens rest
      | _ => checked_tokens rest
      end
  | _ :: rest => checked_tokens rest
  end.

(** The exception one loop iteration raises on an account of the wrong
    shape: [account.get] on a non-dict, [.strip()] on a non-string token. *)
Definition loop_error (a : json) : option string :=
  match a with
  | JDict kvs =>
      match dict_get kvs "token" (JStr "") with
      | JStr _ => None
      | v => Some (attr_error v "strip")
      end
  | v => Some (attr_error v "get")
  end.

(** An account the loop gets through whatever the network answers: a dict
    whose token is a string that is blank, or whose header value [requests]
    rejects, or whose header value [http.client] can send. *)
Definition account_safe (a : json) : bool :=
  match a with
  | JDict kvs =>
      match dict_get kvs "token" (JStr "") with
      | JStr t =>
          String.eqb (strip t) "" || negb (header_value_valid ("Bearer " ++ strip t))
          || header_ok (strip t)
      | _ => false
      end
  | _ => false
  end.

(** Where the requests of a run go: every GET and every connection is the
    token check against the Koyeb API, every POST is [sendMessage] of the
    configured bot. *)
Definition request_ok (w : world) (e : event) : Prop :=
  match e with
  | EGet u hd o => u = koyeb_url /\ o = 30 /\ exists t, hd = koyeb_headers t
  | EConnect u o => u = koyeb_url /\ o = 30
  | EPost u d o =>
      exists b c msg, getenv w "TG_BOT_TOKEN" = Some b /\ getenv w "TG_CHAT_ID" = Some c /\
        u = "https://api.telegram.org/bot" ++ b ++ "/sendMessage" /\
        d = [("chat_id", c); ("text", msg); ("parse_mode", "Markdown")] /\ o = 30
  | _ => True
  end.

(** ** Proofs *)

(** *** The monad *)

Lemma bind_ok {A B} (m : M A) (f : A -> M B) h d1 a :
  m h = (d1, Ok a) ->
  bind m f h = ((d1 ++ fst (f a (h ++ d1)))%list, snd (f a (h ++ d1)%list)).
Proof.
  intros E. unfold bind. rewrite E. destruct (f a (h ++ d1)%list). reflexivity.
Qed.

Lemma bind_exc {A B} (m : M A) (f : A -> M B) h d1 e :
  m h = (d1, Exc e) -> bind m f h = (d1, Exc e).
Proof. intros E. unfold bind. rewrite E. reflexivity. Qed.

Lemma emits_bind Q {A B} (m : M A) (f : A -> M B) :
  Emits Q m -> (forall a, Emits Q (f a)) -> Emits Q (bind m f).
Proof.
  intros Hm Hf h. unfold bind. specialize (Hm h).
  destruct (m h) as [d1 [a|e]]; simpl in *; [|assumption].
  specialize (Hf a (h ++ d1)%list). destruct (f a (h ++ d1)%list) as [d2 r2].
  simpl in *. apply Forall_app. auto.
Qed.

Lemma emits_ret Q {A} (a : A) : Emits Q (ret a).
Proof. intros h. constructor. Qed.

Lemma emits_raise Q {A} (e : string) : Emits Q (@raise A e).
Proof. intros h. constructor. Qed.

Lemma emits_of_result Q {A} (r : result A) : Emits Q (of_result r).
Proof. intros h. constructor. Qed.

Lemma emits_emit (Q : event -> Prop) e : Q e -> Emits Q (emit e).
Proof. intros H h. repeat constructor. assumption. Qed.

Lemma emits_net_resp Q w : Emits Q (net_resp w).
Proof. intros h. constructor. Qed.

Lemma emits_try_except Q {A} (m : M A) (handler : string -> M A) :
  Emits Q m -> (forall e, Emits Q (handler e)) -> Emits Q (try_except m handler).
Proof.
  intros Hm Hh h. unfold try_except. specialize (Hm h).
  destruct (m h) as [d1 [a|e]]; simpl in *; [assumption|].
  specialize (Hh e (h ++ d1)%list). destruct (handler e (h ++ d1)%list) as [d2 r2].
  simpl in *. apply Forall_app. auto.
Qed.

(** *** Lists of events *)

Lemma count_posts_app a b : count_posts (a ++ b) = (count_posts a + count_posts b)%nat.
Proof. unfold count_posts. rewrite filter_app, length_app. reflexivity. Qed.

Lemma count_posts_none tr : Forall (fun ev => is_post ev = false) tr -> count_posts tr = 0%nat.
Proof.
  induction 1 as [|x l Hx _ IH]; [reflexivity|].
  unfold count_posts in *. simpl. rewrite Hx. exact IH.
Qed.

Lemma posted_texts_app a b : posted_texts (a ++ b) = (posted_texts a ++ posted_texts b)%list.
Proof. unfold posted_texts. apply flat_map_app. Qed.

Lemma posted_texts_none tr :
  Forall (fun ev => is_post ev = false) tr -> posted_texts tr = [].
Proof.
  induction 1 as [|x l Hx _ IH]; [reflexivity|].
  destruct x; try discriminate; exact IH.
Qed.

Lemma sleeps_app a b : sleeps (a ++ b) = (sleeps a ++ sleeps b)%list.
Proof. unfold sleeps. apply flat_map_app. Qed.

Lemma filter_none (f : event -> bool) tr :
  Forall (fun ev => f ev = false) tr -> filter f tr = [].
Proof. induction 1 as [|x l Hx _ IH]; [reflexivity|]. simpl. rewrite Hx. exact IH. Qed.

Lemma filter_nil_notin (f : event -> bool) l x : filter f l = [] -> In x l -> f x = false.
Proof.
  intros H Hi. destruct (f x) eqn:E; [|reflexivity].
  assert (Hx : In x (filter f l)) by (apply filter_In; auto). rewrite H in Hx. destruct Hx.
Qed.

Lemma sleeps_nil_quiet tr : Forall quiet tr -> filter is_check tr = [] /\ sleeps tr = [].
Proof.
  induction 1 as [|x l [Hc [Hs _]] _ [IHc IHs]]; [split; reflexivity|].
  simpl. rewrite Hc. split; [exact IHc|].
  destruct x; try discriminate; exact IHs.
Qed.

Lemma sleeps_cases l : sleeps l = [] \/ exists a s b, l = (a ++ ESleep s :: b)%list.
Proof.
  induction l as [|x l IH]; [left; reflexivity|].
  destruct x as [lv m|u hd o|u d o|u o|s]; [..|right; exists [], s, l; reflexivity];
    (destruct IH as [IH|(a & s' & b & ->)]; [left; exact IH | right]).
  - exists (ELog lv m :: a), s', b. reflexivity.
  - exists (EGet u hd o :: a), s', b. reflexivity.
  - exists (EPost u d o :: a), s', b. reflexivity.
  - exists (EConnect u o :: a), s', b. reflexivity.
Qed.

Lemma split_one (pre : list event) x t : (pre ++ x :: t)%list = ((pre ++ [x]) ++ t)%list.
Proof. rewrite <- app_assoc. reflexivity. Qed.

Lemma check_not_request e : is_check e = true -> is_request e = false.
Proof. destruct e; simpl; congruence. Qed.

Lemma check_not_sleep e : is_check e = true -> is_sleep e = false.
Proof. destruct e; simpl; congruence. Qed.

Lemma request_not_sleep e : is_request e = true -> is_sleep e = false.
Proof. destruct e; simpl; congruence. Qed.

Lemma prefix_app s t : String.prefix s (s ++ t) = true.
Proof.
  induction s as [|a s IH]; [destruct t; reflexivity|].
  simpl. destruct (ascii_dec a a) as [_|n]; [exact IH | congruence].
Qed.

Lemma is_check_log name : is_check (ELog Info ("🔍 正在检查账户: " ++ name)) = true.
Proof. apply prefix_app. Qed.

(** *** [send_tg_message] *)

Lemma form_error_tg c msg :
  form_error (tg_form c msg) =
    match utf8_error c with Some e => Some e | None => utf8_error msg end.
Proof.
  unfold tg_form. cbn [form_error].
  replace (utf8_error "chat_id") with (@None string) by reflexivity.
  replace (utf8_error "text") with (@None string) by reflexivity.
  replace (utf8_error "parse_mode") with (@None string) by reflexivity.
  replace (utf8_error "Markdown") with (@None string) by reflexivity.
  destruct (utf8_error c); [reflexivity|]. destruct (utf8_error msg); reflexivity.
Qed.

(** The three ways [send_tg_message] goes: the warning when Telegram is
    not configured; the [UnicodeEncodeError] of the form, before anything
    is sent; or one POST and one log line. *)
Lemma send_tg_message_spec w msg h :
  (tg_configured w = false /\
     send_tg_message w msg h = ([ELog Warning tg_skip_warning], Ok tt))
  \/ (tg_configured w = true /\ tg_sendable w msg = false /\
      exists e, send_tg_message w msg h = ([], Exc e) /\
        (utf8_error (tg_chat_id w) = Some e \/ utf8_error msg = Some e))
  \/ (tg_sendable w msg = true /\
      exists b c lg, getenv w "TG_BOT_TOKEN" = Some b /\ getenv w "TG_CHAT_ID" = Some c /\
        send_tg_message w msg h = ([EPost (tg_url b) (tg_form c msg) 30; lg], Ok tt) /\
        (lg = ELog Info "✅ Telegram 消息发送成功" \/
         exists e, lg = ELog Error ("❌ 发送 Telegram 消息失败: " ++ e))).
Proof.
  unfold send_tg_message, tg_sendable, tg_configured, tg_chat_id.
  destruct (getenv w "TG_BOT_TOKEN") as [b|] eqn:Hb, (getenv w "TG_CHAT_ID") as [c|] eqn:Hc;
    try (left; split; reflexivity).
  destruct (String.eqb b "") eqn:Eb, (String.eqb c "") eqn:Ec; cbn [orb negb andb];
    try (left; split; reflexivity).
  right.
  change [("chat_id", c); ("text", msg); ("parse_mode", "Markdown")] with (tg_form c msg).
  rewrite form_error_tg. unfold utf8_ok.
  destruct (utf8_error c) as [e|] eqn:Hu.
  - left. split; [reflexivity|]. split; [reflexivity|].
    exists e. split; [reflexivity | left; reflexivity].
  - destruct (utf8_error msg) as [e|] eqn:Hm.
    + left. split; [reflexivity|]. split; [reflexivity|].
      exists e. split; [reflexivity | right; reflexivity].
    + right. split; [reflexivity|]. exists b, c.
      unfold bind, emit, net_resp. cbn -[tg_form].
      destruct (net w _) as [x y z|x|x]; [destruct (http_error_msg x y z)|..];
        eexists; (split; [reflexivity|]); (split; [reflexivity|]);
        (split; [reflexivity|]); eauto.
Qed.

Lemma tg_sendable_configured w msg : tg_sendable w msg = true -> tg_configured w = true.
Proof. unfold tg_sendable. destruct (tg_configured w); [reflexivity | discriminate]. Qed.

Lemma send_tg_message_unconfigured w msg h :
  tg_configured w = false ->
  send_tg_message w msg h = ([ELog Warning tg_skip_warning], Ok tt).
Proof.
  intros Hc. destruct (send_tg_message_spec w msg h)
    as [[_ E]|[[Hc' _]|[Hs _]]]; [exact E | congruence |].
  rewrite (tg_sendable_configured _ _ Hs) in Hc. discriminate.
Qed.

Lemma send_tg_message_posts w msg h :
  count_posts (fst (send_tg_message w msg h)) = if tg_sendable w msg then 1%nat else 0%nat.
Proof.
  destruct (send_tg_message_spec w msg h)
    as [[Hc E]|[[_ [Hs (e & E & _)]]|[Hs (b & c & lg & _ & _ & E & Hl)]]]; rewrite E.
  - unfold tg_sendable. rewrite Hc. reflexivity.
  - rewrite Hs. reflexivity.
  - rewrite Hs. destruct Hl as [->|[e ->]]; reflexivity.
Qed.

Lemma send_tg_message_texts w msg h :
  posted_texts (fst (send_tg_message w msg h)) = if tg_sendable w msg then [msg] else [].
Proof.
  destruct (send_tg_message_spec w msg h)
    as [[Hc E]|[[_ [Hs (e & E & _)]]|[Hs (b & c & lg & _ & _ & E & Hl)]]]; rewrite E.
  - unfold tg_sendable. rewrite Hc. reflexivity.
  - rewrite Hs. reflexivity.
  - rewrite Hs. destruct Hl as [->|[e ->]]; reflexivity.
Qed.

Lemma send_tg_message_result w msg h :
  snd (send_tg_message w msg h) = Ok tt <->
  tg_configured w = false \/ tg_sendable w msg = true.
Proof.
  destruct (send_tg_message_spec w msg h)
    as [[Hc E]|[[Hc [Hs (e & E & _)]]|[Hs (b & c & lg & _ & _ & E & Hl)]]]; rewrite E; simpl.
  - split; auto.
  - split; [discriminate | intros [H|H]; congruence].
  - split; auto.
Qed.

Lemma send_tg_message_raises w msg h e :
  snd (send_tg_message w msg h) = Exc e ->
  fst (send_tg_message w msg h) = [] /\ tg_configured w = true /\ tg_sendable w msg = false /\
  (utf8_error (tg_chat_id w) = Some e \/ utf8_error msg = Some e).
Proof.
  destruct (send_tg_message_spec w msg h)
    as [[Hc E]|[[Hc [Hs (e' & E & He)]]|[Hs (b & c & lg & _ & _ & E & Hl)]]]; rewrite E;
    simpl; intros H; try discriminate.
  inversion H; subst. auto.
Qed.

(** Every event of [send_tg_message] is a POST or a log line other than a
    check line. *)
Lemma send_tg_message_events w msg h :
  Forall (fun e => is_post e = true \/
                   (exists lv m, e = ELog lv m) /\ is_check e = false)
    (fst (send_tg_message w msg h)).
Proof.
  destruct (send_tg_message_spec w msg h)
    as [[Hc E]|[[_ [Hs (e & E & _)]]|[Hs (b & c & lg & _ & _ & E & Hl)]]]; rewrite E.
  - constructor; [|constructor]. right. split; [eauto | reflexivity].
  - constructor.
  - constructor; [left; reflexivity|].
    destruct Hl as [->|[e' ->]]; (constructor; [|constructor]);
      right; (split; [eauto | reflexivity]).
Qed.

Lemma send_tg_message_quiet w msg h : Forall quiet (fst (send_tg_message w msg h)).
Proof.
  eapply Forall_impl; [|apply send_tg_message_events].
  intros e [H|[(lv & m & ->) Hc]]; [destruct e; try discriminate; repeat split|].
  split; [exact Hc | split; reflexivity].
Qed.

Lemma send_tg_message_no_request w msg h :
  Forall (fun e => is_request e = false) (fst (send_tg_message w msg h)).
Proof.
  eapply Forall_impl; [|apply send_tg_message_events].
  intros e [H|[(lv & m & ->) _]]; [destruct e; try discriminate|]; reflexivity.
Qed.

Lemma send_tg_message_no_get w msg h :
  Forall (fun e => is_get e = false) (fst (send_tg_message w msg h)).
Proof.
  eapply Forall_impl; [|apply send_tg_message_events].
  intros e [H|[(lv & m & ->) _]]; [destruct e; try discriminate|]; reflexivity.
Qed.

Lemma send_tg_message_no_sleep w msg h : sleeps (fst (send_tg_message w msg h)) = [].
Proof.
  apply sleeps_nil_quiet. apply send_tg_message_quiet.
Qed.

Lemma send_tg_message_requests w msg : Emits (request_ok w) (send_tg_message w msg).
Proof.
  intros h.
  destruct (send_tg_message_spec w msg h)
    as [[Hc E]|[[_ [Hs (e & E & _)]]|[Hs (b & c & lg & Hb & Hc & E & Hl)]]]; rewrite E.
  - repeat constructor.
  - constructor.
  - constructor.
    + exists b, c, msg. repeat split; assumption.
    + destruct Hl as [->|[e' ->]]; repeat constructor.
Qed.

(** *** [check_koyeb_with_token] and one loop iteration *)

Lemma check_koyeb_with_token_empty rt w name h :
  check_koyeb_with_token rt w name "" h = ([], Ok (false, "Token 为空")).
Proof. reflexivity. Qed.

(** The three ways the check of a non-empty token goes: [requests] rejects
    the header value before any network activity; [http.client] cannot
    send it, after the connection is opened; or the GET goes out. *)
Lemma check_koyeb_with_token_run rt w name token h :
  token <> "" ->
  let auth := "Bearer " ++ token in
  let get := EGet koyeb_url (koyeb_headers token) 30 in
  let conn := EConnect koyeb_url 30 in
  (header_value_valid auth = false /\
     check_koyeb_with_token rt w name token h = ([], Ok (false, invalid_header_msg rt auth)))
  \/ (exists err, header_value_valid auth = true /\ putheader_error auth = Some err /\
       check_koyeb_with_token rt w name token h =
         ([conn], match net w (h ++ [conn])%list with
                  | HResp _ _ _ => Exc err
                  | HTimeout _ => Ok (false, "请求超时")
                  | HReqErr e => Ok (false, e)
                  end))
  \/ (header_ok token = true /\
      exists res,
        check_koyeb_with_token rt w name token h = ([get], Ok res) /\
        match net w (h ++ [get])%list with
        | HResp code reason rurl =>
            match http_error_msg code reason rurl with
            | None => res = (true, "Token 校验成功")
            | Some e => res = (false, e)
            end
        | HTimeout _ => res = (false, "请求超时")
        | HReqErr e => res = (false, e)
        end).
Proof.
  intros Hne auth get conn. unfold check_koyeb_with_token, header_ok.
  apply String.eqb_neq in Hne. rewrite Hne. fold auth.
  destruct (header_value_valid auth) eqn:Hv; cbn [negb andb].
  2:{ left. split; reflexivity. }
  destruct (putheader_error auth) as [err|] eqn:Hp.
  - right; left. exists err. split; [reflexivity|]. split; [reflexivity|].
    unfold bind, emit, net_resp, ret, raise. fold conn. cbn -[conn].
    destruct (net w (h ++ [conn])%list); reflexivity.
  - right; right. split; [reflexivity|].
    change [("Authorization", auth); ("Accept", "application/json");
            ("User-Agent", "KoyebKeepAliveScript/1.0")] with (koyeb_headers token).
    fold get. unfold bind, emit, net_resp, ret. cbn -[get].
    destruct (net w (h ++ [get])%list) as [c r u|e|e];
      [destruct (http_error_msg c r u)|..]; eexists; split; reflexivity.
Qed.

(** A dict account with a non-blank string token: the check line, the
    check, and the pause if the check returns. *)
Lemma process_account_check rt w kvs t h :
  dict_get kvs "token" (JStr "") = JStr t -> strip t <> "" ->
  let name := account_name rt kvs in
  let log := ELog Info ("🔍 正在检查账户: " ++ name) in
  process_account rt w (JDict kvs) h =
    match check_koyeb_with_token rt w name (strip t) (h ++ [log])%list with
    | (d, Ok (ok, detail)) =>
        ((log :: d ++ [ESleep 5])%list,
         Ok (if ok then success_entry name else failure_entry name detail))
    | (d, Exc e) => (log :: d, Exc e)
    end.
Proof.
  intros Ht Hs name log.
  unfold process_account. rewrite Ht. apply String.eqb_neq in Hs. rewrite Hs.
  fold name. fold log.
  rewrite (bind_ok _ _ _ _ tt eq_refl).
  destruct (check_koyeb_with_token rt w name (strip t) (h ++ [log])%list)
    as [d [[ok detail]|e]] eqn:Hc.
  - rewrite (bind_ok _ _ _ _ (ok, detail) Hc). cbn. rewrite ?app_nil_r. reflexivity.
  - rewrite (bind_exc _ _ _ _ _ Hc). reflexivity.
Qed.

Lemma process_account_shape rt w a h :
  (fst (process_account rt w a h) = [] /\
     exists e, snd (process_account rt w a h) = Exc e /\ loop_error a = Some e)
  \/ (exists kvs t, a = JDict kvs /\ dict_get kvs "token" (JStr "") = JStr t /\
        strip t = "" /\
        process_account rt w a h =
          ([ELog Warning ("⚠️ 账户 " ++ account_name rt kvs ++ " 没有配置 token，跳过")],
           Ok (skipped_entry (account_name rt kvs))))
  \/ (exists kvs t req m, a = JDict kvs /\ dict_get kvs "token" (JStr "") = JStr t /\
        strip t <> "" /\
        process_account rt w a h =
          ((ELog Info ("🔍 正在检查账户: " ++ account_name rt kvs) :: req ++ [ESleep 5])%list,
           Ok m) /\
        (m = success_entry (account_name rt kvs) \/
         exists reason, m = failure_entry (account_name rt kvs) reason) /\
        ((req = [] /\ header_value_valid ("Bearer " ++ strip t) = false) \/
         (req = [EGet koyeb_url (koyeb_headers (strip t)) 30] /\ header_ok (strip t) = true) \/
         (req = [EConnect koyeb_url 30] /\ header_value_valid ("Bearer " ++ strip t) = true /\
          putheader_error ("Bearer " ++ strip t) <> None)))
  \/ (exists kvs t e, a = JDict kvs /\ dict_get kvs "token" (JStr "") = JStr t /\
        strip t <> "" /\ header_value_valid ("Bearer " ++ strip t) = true /\
        putheader_error ("Bearer " ++ strip t) <> None /\
        process_account rt w a h =
          ([ELog Info ("🔍 正在检查账户: " ++ account_name rt kvs); EConnect koyeb_url 30],
           Exc e)).
Proof.
  destruct a as [| | | | | |kvs];
    try (left; split; [reflexivity | eexists; split; reflexivity]).
  destruct (dict_get kvs "token" (JStr "")) as [| | | |t| |] eqn:Ht;
    try (left; unfold process_account, loop_error; rewrite Ht;
         split; [reflexivity | eexists; split; reflexivity]).
  destruct (String.eqb (strip t) "") eqn:Hs.
  - right; left. exists kvs, t. apply String.eqb_eq in Hs.
    refine (conj eq_refl (conj Ht (conj Hs _))).
    unfold process_account. rewrite Ht, Hs. reflexivity.
  - right; right. apply String.eqb_neq in Hs.
    pose proof (process_account_check rt w kvs t h Ht Hs) as Hp. cbv zeta in Hp.
    set (n := account_name rt kvs) in *.
    pose proof (check_koyeb_with_token_run rt w n (strip t)
                  (h ++ [ELog Info ("🔍 正在检查账户: " ++ n)])%list Hs) as Hr.
    cbv zeta in Hr.
    destruct Hr as [[Hv Hc]|[(err & Hv & Hpe & Hc)|[Hok (res & Hc & _)]]];
      rewrite Hc in Hp.
    + left. exists kvs, t, [], (failure_entry n (invalid_header_msg rt ("Bearer " ++ strip t))).
      refine (conj eq_refl (conj Ht (conj Hs (conj Hp _)))).
      split; [right; eexists; reflexivity | left; split; [reflexivity | exact Hv]].
    + assert (Hpn : putheader_error ("Bearer " ++ strip t) <> None) by (rewrite Hpe; discriminate).
      destruct (net w _) as [c r u|m|m].
      * right. exists kvs, t, err. repeat split; assumption.
      * left. exists kvs, t, [EConnect koyeb_url 30], (failure_entry n "请求超时").
        refine (conj eq_refl (conj Ht (conj Hs (conj Hp _)))).
        split; [right; eexists; reflexivity | right; right; auto].
      * left. exists kvs, t, [EConnect koyeb_url 30], (failure_entry n m).
        refine (conj eq_refl (conj Ht (conj Hs (conj Hp _)))).
        split; [right; eexists; reflexivity | right; right; auto].
    + left. destruct res as [ok detail].
      exists kvs, t, [EGet koyeb_url (koyeb_headers (strip t)) 30],
        (if ok then success_entry n else failure_entry n detail).
      refine (conj eq_refl (conj Ht (conj Hs (conj Hp _)))).
      split; [destruct ok; [left | right; eexists]; reflexivity | right; left; auto].
Qed.

Lemma run_accounts_cons rt w a rest h d1 m :
  process_account rt w a h = (d1, Ok m) ->
  run_accounts rt w (a :: rest) h =
    let '(d2, r2) := run_accounts rt w rest (h ++ d1)%list in
    ((d1 ++ d2)%list, match r2 with Ok ms => Ok (m :: ms) | Exc e => Exc e end).
Proof.
  intros E. simpl. unfold bind at 1. rewrite E. unfold bind.
  destruct (run_accounts rt w rest (h ++ d1)%list) as [d2 [ms|e]]; simpl;
    rewrite ?app_nil_r; reflexivity.
Qed.

Lemma run_accounts_cons_exc rt w a rest h d1 e :
  process_account rt w a h = (d1, Exc e) ->
  run_accounts rt w (a :: rest) h = (d1, Exc e).
Proof. intros E. simpl. apply bind_exc. assumption. Qed.

Lemma run_accounts_entries rt w accounts h d ms :
  run_accounts rt w accounts h = (d, Ok ms) -> Forall2 (entry_for rt) accounts ms.
Proof.
  revert h d ms. induction accounts as [|a rest IH]; intros h d ms E.
  - simpl in E. inversion E; subst. constructor.
  - destruct (process_account rt w a h) as [d1 [m|e]] eqn:Hp.
    2:{ rewrite (run_accounts_cons_exc _ _ _ _ _ _ _ Hp) in E. discriminate. }
    rewrite (run_accounts_cons _ _ _ _ _ _ _ Hp) in E.
    destruct (run_accounts rt w rest (h ++ d1)%list) as [d2 [ms2|e2]] eqn:Hr;
      inversion E; subst.
    constructor; [|eapply IH; eassumption].
    destruct (process_account_shape rt w a h)
      as [[_ (e & He & _)]|[(kvs & t & -> & _ & _ & Hp')
         |[(kvs & t & req & m' & -> & _ & _ & Hp' & Hm & _)|(kvs & t & e & -> & _ & Hp')]]];
      rewrite Hp in *; simpl in *.
    + discriminate.
    + inversion Hp'; subst. exists kvs. auto.
    + inversion Hp'; subst. exists kvs. split; [reflexivity|].
      destruct Hm as [->|[r ->]]; eauto.
    + destruct Hp' as (_ & _ & _ & Hp'). discriminate.
Qed.

Lemma process_account_loop_error rt w a h e :
  loop_error a = Some e -> process_account rt w a h = ([], Exc e).
Proof.
  destruct a as [| | | | | |kvs]; simpl; intros H; try (inversion H; reflexivity).
  unfold process_account.
  destruct (dict_get kvs "token" (JStr "")); inversion H; reflexivity.
Qed.

Lemma process_account_no_post rt w a :
  Emits (fun e => is_post e = false) (process_account rt w a).
Proof.
  intros h. destruct (process_account_shape rt w a h)
    as [[-> _]|[(kvs & t & _ & _ & _ & ->)
       |[(kvs & t & req & m & _ & _ & _ & -> & _ & Hreq)|(kvs & t & e & _ & _ & _ & _ & _ & ->)]]];
    simpl; repeat constructor.
  apply Forall_app. split; [|repeat constructor].
  destruct Hreq as [[-> _]|[[-> _]|[-> _]]]; repeat constructor.
Qed.

Lemma run_accounts_no_post rt w accounts :
  Emits (fun e => is_post e = false) (run_accounts rt w accounts).
Proof.
  induction accounts as [|a rest IH]; simpl.
  - apply emits_ret.
  - apply emits_bind; [apply process_account_no_post | intros m].
    apply emits_bind; [exact IH | intros ms]. apply emits_ret.
Qed.

(** *** [main] *)

Lemma validate_env_variables_silent jl w h : fst (validate_env_variables jl w h) = [].
Proof.
  unfold validate_env_variables.
  destruct (getenv w "KOYEB_ACCOUNTS"); [|reflexivity].
  destruct (String.eqb s ""); [reflexivity|]. destruct (jl s); reflexivity.
Qed.

Lemma validate_env_variables_ok_inv jl w h v :
  validate_env_variables jl w h = ([], Ok v) ->
  exists s, getenv w "KOYEB_ACCOUNTS" = Some s /\ s <> "" /\ jl s = Loaded v.
Proof.
  unfold validate_env_variables.
  destruct (getenv w "KOYEB_ACCOUNTS") as [s|]; [|discriminate].
  destruct (String.eqb s "") eqn:Hs; [discriminate|].
  destruct (jl s) as [v'| |m] eqn:Hj; try discriminate.
  intros E. inversion E; subst. apply String.eqb_neq in Hs. eauto.
Qed.

Lemma validate_env_variables_loaded jl w h s v :
  getenv w "KOYEB_ACCOUNTS" = Some s -> s <> "" -> jl s = Loaded v ->
  validate_env_variables jl w h = ([], Ok v).
Proof.
  intros Hs Hne Hj. unfold validate_env_variables. rewrite Hs.
  apply String.eqb_neq in Hne. rewrite Hne, Hj. reflexivity.
Qed.

Lemma main_body_cases jl rt w h :
  (exists e, snd (main_body jl rt w h) = Exc e /\
     (fst (main_body jl rt w h) = [] \/
      exists accounts d_loop, run_accounts rt w accounts h = (d_loop, Exc e) /\
                              fst (main_body jl rt w h) = d_loop))
  \/ (exists v accounts d_loop ms,
        validate_env_variables jl w h = ([], Ok v) /\ truthy v = true /\
        py_iter v = Ok accounts /\
        run_accounts rt w accounts h = (d_loop, Ok ms) /\
        main_body jl rt w h =
          ((d_loop ++ ELog Info done_log ::
              fst (send_tg_message w (build_summary (current_time w) ms)
                     (h ++ d_loop ++ [ELog Info done_log])))%list,
           snd (send_tg_message w (build_summary (current_time w) ms)
                  (h ++ d_loop ++ [ELog Info done_log])%list))).
Proof.
  unfold main_body.
  pose proof (validate_env_variables_silent jl w h) as Hsil.
  destruct (validate_env_variables jl w h) as [d0 [v|e]] eqn:Hv;
    simpl in Hsil; subst d0.
  2:{ left. rewrite (bind_exc _ _ _ _ _ Hv). eexists; split; [reflexivity|left; reflexivity]. }
  rewrite (bind_ok _ _ _ _ _ Hv). rewrite !app_nil_r. simpl.
  destruct (truthy v) eqn:Ht; simpl.
  2:{ left. eexists; split; [reflexivity|left; reflexivity]. }
  destruct (py_iter v) as [accounts|e] eqn:Hi.
  2:{ left. unfold of_result at 1. rewrite (bind_exc _ _ _ [] e eq_refl).
      eexists; split; [reflexivity|left; reflexivity]. }
  rewrite (bind_ok _ _ _ [] accounts eq_refl). simpl. rewrite !app_nil_r.
  destruct (run_accounts rt w accounts h) as [dl [ms|e]] eqn:Hr.
  2:{ left. rewrite (bind_exc _ _ _ _ _ Hr). eexists; split; [reflexivity|].
      right. exists accounts, dl. split; [exact Hr | reflexivity]. }
  right. exists v, accounts, dl, ms. repeat split; auto.
  rewrite (bind_ok _ _ _ _ _ Hr). simpl.
  rewrite (bind_ok _ _ _ _ tt eq_refl). simpl.
  rewrite <- app_assoc. reflexivity.
Qed.

Lemma main_run jl rt w h :
  main jl rt w h =
    match main_body jl rt w h with
    | (d, Ok a) => (d, Ok a)
    | (d, Exc e) =>
        ((d ++ ELog Error (error_message e) ::
            fst (send_tg_message w (error_message e) (h ++ d ++ [ELog Error (error_message e)])))%list,
         snd (send_tg_message w (error_message e) (h ++ d ++ [ELog Error (error_message e)])%list))
    end.
Proof.
  unfold main, try_except.
  destruct (main_body jl rt w h) as [d [a|e]]; [reflexivity|].
  rewrite (bind_ok _ _ _ _ tt eq_refl). simpl.
  rewrite <- app_assoc. reflexivity.
Qed.

Lemma main_early_error jl rt w h desc :
  main_body jl rt w h = ([], Exc desc) ->
  main jl rt w h =
    (ELog Error (error_message desc) ::
       fst (send_tg_message w (error_message desc) (h ++ [ELog Error (error_message desc)])%list),
     snd (send_tg_message w (error_message desc) (h ++ [ELog Error (error_message desc)])%list)).
Proof. intros E. rewrite main_run, E. reflexivity. Qed.

(** The effects of a run that fails before its loop: no request to Koyeb,
    and the error line is POSTed once exactly when Telegram is configured
    and the chat id and the line encode to UTF-8. *)
Lemma main_early_error_effects jl rt w h desc :
  main_body jl rt w h = ([], Exc desc) ->
  let line := error_message desc in
  filter is_request (fst (main jl rt w h)) = [] /\
  count_posts (fst (main jl rt w h)) = (if tg_sendable w line then 1 else 0)%nat /\
  posted_texts (fst (main jl rt w h)) = (if tg_sendable w line then [line] else []) /\
  (snd (main jl rt w h) = Ok tt <-> tg_configured w = false \/ tg_sendable w line = true) /\
  (forall e, snd (main jl rt w h) = Exc e ->
     utf8_error (tg_chat_id w) = Some e \/ utf8_error line = Some e).
Proof.
  intros E line. rewrite (main_early_error _ _ _ _ _ E). fold line. cbn [fst snd].
  set (h' := (h ++ [ELog Error line])%list).
  split; [|split; [|split; [|split]]].
  - simpl. apply filter_none. apply send_tg_message_no_request.
  - change (ELog Error line :: ?t) with ([ELog Error line] ++ t)%list.
    rewrite count_posts_app, send_tg_message_posts. reflexivity.
  - change (ELog Error line :: ?t) with ([ELog Error line] ++ t)%list.
    rewrite posted_texts_app, send_tg_message_texts. reflexivity.
  - apply send_tg_message_result.
  - intros e He. destruct (send_tg_message_raises w line h' e He) as (_ & _ & _ & H). exact H.
Qed.

(** Every run hands one message to [send_tg_message] last: the summary if
    the [try] block completes, or else an error line logged before it. *)
Lemma main_single_send jl rt w h :
  exists pre msg,
    fst (main jl rt w h) = (pre ++ fst (send_tg_message w msg (h ++ pre)))%list /\
    snd (main jl rt w h) = snd (send_tg_message w msg (h ++ pre)%list) /\
    count_posts pre = 0%nat /\
    ((exists ms, msg = build_summary (current_time w) ms /\ snd (main jl rt w h) = Ok tt) \/
     (exists e, msg = error_message e /\ In (ELog Error msg) pre)).
Proof.
  rewrite main_run.
  destruct (main_body_cases jl rt w h)
    as [[e [He Hn]]|(v & a & dl & ms & _ & _ & _ & Hr & Hb)].
  - assert (Hn' : Forall (fun ev => is_post ev = false) (fst (main_body jl rt w h))).
    { destruct Hn as [-> | (a & dl & Hr & ->)]; [constructor|].
      pose proof (run_accounts_no_post rt w a h) as Hp. rewrite Hr in Hp. exact Hp. }
    clear Hn. rename Hn' into Hn.
    destruct (main_body jl rt w h) as [d r]. simpl in He, Hn. subst r.
    exists (d ++ [ELog Error (error_message e)])%list, (error_message e).
    assert (Hpre : Forall (fun ev => is_post ev = false) (d ++ [ELog Error (error_message e)])%list)
      by (apply Forall_app; split; [exact Hn | repeat constructor]).
    simpl fst. simpl snd. rewrite split_one.
    split; [rewrite <- app_assoc; reflexivity|].
    split; [reflexivity|].
    split; [exact (count_posts_none _ Hpre)|].
    right. exists e. split; [reflexivity|]. apply in_or_app. right. left. reflexivity.
  - rewrite Hb.
    pose proof (run_accounts_no_post rt w a h) as Hn. rewrite Hr in Hn. simpl in Hn.
    set (sm := build_summary (current_time w) ms).
    set (h1 := (h ++ dl ++ [ELog Info done_log])%list).
    destruct (send_tg_message w sm h1) as [d1 [[]|e]] eqn:Hs.
    + exists (dl ++ [ELog Info done_log])%list, sm.
      assert (Hpre : Forall (fun ev => is_post ev = false) (dl ++ [ELog Info done_log])%list)
        by (apply Forall_app; split; [exact Hn | repeat constructor]).
      replace (h ++ dl ++ [ELog Info done_log])%list with h1 by reflexivity.
      rewrite Hs. cbn [fst snd].
      split; [rewrite <- app_assoc; reflexivity|].
      split; [reflexivity|].
      split; [exact (count_posts_none _ Hpre)|].
      left. exists ms. split; reflexivity.
    + assert (Hd1 : d1 = []).
      { pose proof (send_tg_message_raises w sm h1 e) as Hx. rewrite Hs in Hx.
        destruct (Hx eq_refl) as [H _]. exact H. }
      subst d1. cbn [fst snd].
      exists (dl ++ [ELog Info done_log; ELog Error (error_message e)])%list, (error_message e).
      assert (Hpre : Forall (fun ev => is_post ev = false)
                       (dl ++ [ELog Info done_log; ELog Error (error_message e)])%list)
        by (apply Forall_app; split; [exact Hn | repeat constructor]).
      split; [rewrite <- !app_assoc; cbn [app]; reflexivity|].
      split; [rewrite <- !app_assoc; cbn [app]; reflexivity|].
      split; [exact (count_posts_none _ Hpre)|].
      right. exists e. split; [reflexivity|]. apply in_or_app. right. right. left. reflexivity.
Qed.
(** *** Lines of the summary and the time format *)

Lemma str_app_assoc (a b c : string) : (a ++ b) ++ c = a ++ (b ++ c).
Proof. induction a as [|x a IH]; simpl; [reflexivity|]. rewrite IH. reflexivity. Qed.

Lemma str_app_nil_r (a : string) : a ++ "" = a.
Proof. induction a as [|x a IH]; simpl; [reflexivity|]. rewrite IH. reflexivity. Qed.

Lemma lines_aux_app_nl cur a b :
  lines_aux cur (a ++ nl ++ b) = (lines_aux cur a ++ lines_aux "" b)%list.
Proof.
  revert cur. induction a as [|c r IH]; intros cur; [reflexivity|].
  simpl. destruct (Ascii.eqb c (ascii_of_nat 10)).
  - rewrite IH. reflexivity.
  - apply IH.
Qed.

Lemma lines_aux_no_nl cur s : no_nl s = true -> lines_aux cur s = [cur ++ s].
Proof.
  revert cur. induction s as [|c r IH]; intros cur H; simpl in *.
  - rewrite str_app_nil_r. reflexivity.
  - apply andb_true_iff in H as [Hc Hr]. apply negb_true_iff in Hc. rewrite Hc.
    rewrite (IH _ Hr), str_app_assoc. reflexivity.
Qed.

Lemma no_nl_app a b : no_nl (a ++ b) = no_nl a && no_nl b.
Proof. induction a as [|c r IH]; simpl; [reflexivity|]. rewrite IH, andb_assoc. reflexivity. Qed.

Lemma all_digits_app a b : all_digits (a ++ b) = all_digits a && all_digits b.
Proof. induction a as [|c r IH]; simpl; [reflexivity|]. rewrite IH, andb_assoc. reflexivity. Qed.

Lemma all_digits_no_nl s : all_digits s = true -> no_nl s = true.
Proof.
  induction s as [|c r IH]; simpl; [reflexivity|].
  intros H. apply andb_true_iff in H as [Hc Hr]. rewrite (IH Hr), andb_true_r.
  apply negb_true_iff. destruct (Ascii.eqb c (ascii_of_nat 10)) eqn:E; [|reflexivity].
  apply Ascii.eqb_eq in E. subst c. discriminate.
Qed.

Lemma lines_join ms : ms <> [] -> lines (join nl ms) = concat (map lines ms).
Proof.
  induction ms as [|x [|y rest] IH]; intros Hne; [congruence| |].
  - simpl. rewrite app_nil_r. reflexivity.
  - change (join nl (x :: y :: rest)) with (x ++ nl ++ join nl (y :: rest)).
    unfold lines. rewrite lines_aux_app_nl. fold (lines x).
    fold (lines (join nl (y :: rest))). rewrite IH by discriminate. reflexivity.
Qed.

Lemma lines_build_summary t ms :
  no_nl t = true -> ms <> [] ->
  lines (build_summary t ms) =
    ("⏰ 北京时间: " ++ t) :: "" :: (concat (map lines ms) ++ [""; "✅ 任务执行完成"])%list.
Proof.
  intros Ht Hne. unfold build_summary, lines.
  rewrite <- (str_app_assoc "⏰ 北京时间: " t).
  rewrite lines_aux_app_nl.
  rewrite (lines_aux_no_nl _ _) by (rewrite no_nl_app, Ht; reflexivity).
  change (nl ++ ?x) with ("" ++ nl ++ x). rewrite lines_aux_app_nl.
  rewrite lines_aux_app_nl. fold (lines (join nl ms)). rewrite lines_join by exact Hne.
  change (nl ++ ?x) with ("" ++ nl ++ x). rewrite lines_aux_app_nl.
  reflexivity.
Qed.

Lemma check_range_ok f lo n :
  check_range f lo n = true -> forall k, lo <= k < lo + Z.of_nat n -> f k = true.
Proof.
  revert lo. induction n as [|n IH]; intros lo H k Hk; simpl in *; [lia|].
  destruct (f lo) eqn:Hf; [|discriminate].
  destruct (Z.eq_dec k lo) as [->|Hne]; [exact Hf|].
  apply (IH (lo + 1) H). lia.
Qed.

Lemma doe_ok_all doe : 0 <= doe < 146097 -> doe_ok doe = true.
Proof.
  apply (check_range_ok doe_ok 0 (Z.to_nat 146097)). vm_compute. reflexivity.
Qed.

Lemma year_ok_all y : 1000 <= y <= 9999 -> year_ok y = true.
Proof.
  intros H. apply (check_range_ok year_ok 1000 (Z.to_nat 9000)); [vm_compute; reflexivity|lia].
Qed.

Lemma two_ok_all n : 0 <= n <= 99 -> two_ok n = true.
Proof.
  intros H. apply (check_range_ok two_ok 0 (Z.to_nat 100)); [vm_compute; reflexivity|lia].
Qed.

Lemma civil_ranges t :
  let c := civil_of_unix t in
  1 <= c_month c <= 12 /\ 1 <= c_day c <= 31 /\ 0 <= c_hour c <= 23 /\ 0 <= c_minute c <= 59.
Proof.
  unfold civil_of_unix.
  set (z := t / 86400 + 719468).
  set (doe := z - z / 146097 * 146097).
  assert (Hdoe : 0 <= doe < 146097).
  { unfold doe. pose proof (Z.div_mod z 146097 ltac:(lia)).
    pose proof (Z.mod_pos_bound z 146097 ltac:(lia)). lia. }
  pose proof (doe_ok_all doe Hdoe) as Hok. unfold doe_ok in Hok.
  destruct (civil_of_doe doe) as [[yoe m] d]. simpl.
  rewrite !andb_true_iff, !Z.leb_le in Hok.
  clearbody doe z. Z.div_mod_to_equations. repeat split; lia.
Qed.


(** *** Pacing of checks and sleeps *)

Lemma quiet_paced rest : Forall quiet rest -> Paced rest.
Proof. induction 1; [constructor | apply paced_other; assumption]. Qed.

Lemma process_account_paced rt w a h :
  match snd (process_account rt w a h) with
  | Ok _ => forall rest, Paced rest -> Paced (fst (process_account rt w a h) ++ rest)
  | Exc _ => forall rest, Forall quiet rest -> Paced (fst (process_account rt w a h) ++ rest)
  end.
Proof.
  destruct (process_account_shape rt w a h)
    as [[E (e & Hs & _)]|[(kvs & t & _ & _ & _ & Hp)
       |[(kvs & t & req & m & _ & _ & _ & Hp & _ & Hreq)|(kvs & t & e & _ & _ & _ & _ & _ & Hp)]]].
  - rewrite Hs, E. exact quiet_paced.
  - rewrite Hp. cbn [fst snd app]. intros rest Hr. apply paced_other; [repeat split | exact Hr].
  - rewrite Hp. cbn [fst snd]. intros rest Hr.
    destruct Hreq as [[-> _]|[[-> _]|[-> _]]]; cbn [app].
    + apply paced_bare; [apply is_check_log | exact Hr].
    + apply paced_req; [apply is_check_log | reflexivity | exact Hr].
    + apply paced_req; [apply is_check_log | reflexivity | exact Hr].
  - rewrite Hp. cbn [fst snd app]. intros rest Hr.
    apply paced_abort; [apply is_check_log | exact Hr].
Qed.

Lemma run_accounts_paced rt w accounts h rest :
  Forall quiet rest -> Paced (fst (run_accounts rt w accounts h) ++ rest).
Proof.
  revert h. induction accounts as [|a more IH]; intros h Hq.
  - exact (quiet_paced _ Hq).
  - pose proof (process_account_paced rt w a h) as Hpa.
    destruct (process_account rt w a h) as [d1 [m|e]] eqn:Hp; cbn [fst snd] in Hpa.
    + rewrite (run_accounts_cons _ _ _ _ _ _ _ Hp).
      specialize (IH (h ++ d1)%list Hq).
      destruct (run_accounts rt w more (h ++ d1)%list) as [d2 r2]. cbn [fst] in *.
      rewrite <- app_assoc. apply Hpa. exact IH.
    + rewrite (run_accounts_cons_exc _ _ _ _ _ _ _ Hp). exact (Hpa rest Hq).
Qed.

Lemma main_paced jl rt w h : Paced (fst (main jl rt w h)).
Proof.
  rewrite main_run.
  destruct (main_body_cases jl rt w h)
    as [[e [He Hn]]|(v & a & dl & ms & _ & _ & _ & Hr & Hb)].
  - assert (Hd : forall rest, Forall quiet rest -> Paced (fst (main_body jl rt w h) ++ rest)).
    { destruct Hn as [-> | (a & dl & Hr & ->)]; [exact quiet_paced|].
      intros rest Hq. pose proof (run_accounts_paced rt w a h rest Hq) as Hp.
      rewrite Hr in Hp. exact Hp. }
    destruct (main_body jl rt w h) as [d r]. cbn [fst snd] in He, Hd. subst r. cbn [fst].
    apply Hd. constructor; [repeat split | apply send_tg_message_quiet].
  - rewrite Hb.
    assert (Hq : forall rest, Forall quiet rest -> Paced (dl ++ rest)).
    { intros rest Hq. pose proof (run_accounts_paced rt w a h rest Hq) as Hp.
      rewrite Hr in Hp. exact Hp. }
    destruct (snd (send_tg_message w (build_summary (current_time w) ms)
                     (h ++ dl ++ [ELog Info done_log])%list)) as [u|e];
      cbn [fst].
    + apply Hq. constructor; [repeat split | apply send_tg_message_quiet].
    + rewrite <- app_assoc. apply Hq. cbn [app].
      constructor; [repeat split|]. apply Forall_app.
      split; [apply send_tg_message_quiet|].
      constructor; [repeat split | apply send_tg_message_quiet].
Qed.

Lemma paced_sleep_prev t1 s rest :
  Paced (t1 ++ ESleep s :: rest) ->
  s = 5 /\ exists a c b, t1 = (a ++ c :: b)%list /\ is_check c = true /\
                         (b = [] \/ exists r, b = [r] /\ is_request r = true).
Proof.
  intros H. remember (t1 ++ ESleep s :: rest)%list as tr eqn:E.
  revert t1 E.
  induction H as [|c r0 Hc Hr IH|c q r0 Hc Hq Hr IH|c u o r0 Hc Hq|e r0 He Hr IH];
    intros t1 E.
  - destruct t1; discriminate.
  - destruct t1 as [|x [|y t1]]; cbn [app] in E; inversion E; subst.
    + discriminate Hc.
    + split; [reflexivity|]. exists [], x, []. auto.
    + destruct (IH t1 eq_refl) as [Hs (a & c' & b & -> & Hc' & Hb)].
      split; [exact Hs|]. exists (x :: ESleep 5 :: a), c', b. auto.
  - destruct t1 as [|x [|y [|z t1]]]; cbn [app] in E; inversion E; subst.
    + discriminate Hc.
    + discriminate Hq.
    + split; [reflexivity|]. exists [], x, [y]. split; [reflexivity|].
      split; [exact Hc|]. right. eauto.
    + destruct (IH t1 eq_refl) as [Hs (a & c' & b & -> & Hc' & Hb)].
      split; [exact Hs|]. exists (x :: y :: ESleep 5 :: a), c', b. auto.
  - destruct t1 as [|x [|y t1]]; cbn [app] in E; inversion E; subst.
    + discriminate Hc.
    + exfalso. rewrite Forall_forall in Hq.
      assert (Hin : In (ESleep s) (t1 ++ ESleep s :: rest))
        by (apply in_or_app; right; left; reflexivity).
      destruct (Hq _ Hin) as [_ [Hsl _]]. discriminate Hsl.
  - destruct t1 as [|x t1]; cbn [app] in E; inversion E; subst.
    + destruct He as [_ [Hsl _]]. discriminate Hsl.
    + destruct (IH t1 eq_refl) as [Hs (a & c' & b & -> & Hc' & Hb)].
      split; [exact Hs|]. exists (x :: a), c', b. auto.
Qed.

Lemma paced_check_next t1 c rest :
  Paced (t1 ++ c :: rest) -> is_check c = true ->
  (exists rest', rest = ESleep 5 :: rest' /\ Paced rest') \/
  (exists r rest', rest = r :: ESleep 5 :: rest' /\ is_request r = true /\ Paced rest') \/
  (exists u o rest', rest = EConnect u o :: rest' /\ Forall quiet rest').
Proof.
  intros H Hc0. remember (t1 ++ c :: rest)%list as tr eqn:E.
  revert t1 E.
  induction H as [|c' r0 Hc Hr IH|c' q r0 Hc Hq Hr IH|c' u o r0 Hc Hq|e r0 He Hr IH];
    intros t1 E.
  - destruct t1; discriminate.
  - destruct t1 as [|x [|y t1]]; cbn [app] in E; inversion E; subst.
    + left. eauto.
    + discriminate Hc0.
    + eapply IH. reflexivity.
  - destruct t1 as [|x [|y [|z t1]]]; cbn [app] in E; inversion E; subst.
    + right; left. eauto.
    + rewrite (check_not_request _ Hc0) in Hq. discriminate.
    + discriminate Hc0.
    + eapply IH. reflexivity.
  - destruct t1 as [|x [|y t1]]; cbn [app] in E; inversion E; subst.
    + right; right. eauto.
    + discriminate Hc0.
    + exfalso. rewrite Forall_forall in Hq.
      assert (Hin : In c (t1 ++ c :: rest)) by (apply in_or_app; right; left; reflexivity).
      destruct (Hq _ Hin) as [Hcc _]. congruence.
  - destruct t1 as [|x t1]; cbn [app] in E; inversion E; subst.
    + destruct He as [Hcc _]. congruence.
    + eapply IH. reflexivity.
Qed.

Lemma paced_get_next t1 u hd o rest :
  Paced (t1 ++ EGet u hd o :: rest) -> exists rest', rest = ESleep 5 :: rest'.
Proof.
  intros H. remember (t1 ++ EGet u hd o :: rest)%list as tr eqn:E.
  revert t1 E.
  induction H as [|c r0 Hc Hr IH|c q r0 Hc Hq Hr IH|c u' o' r0 Hc Hq|e r0 He Hr IH];
    intros t1 E.
  - destruct t1; discriminate.
  - destruct t1 as [|x [|y t1]]; cbn [app] in E; inversion E; subst.
    + discriminate Hc.
    + eapply IH. reflexivity.
  - destruct t1 as [|x [|y [|z t1]]]; cbn [app] in E; inversion E; subst.
    + discriminate Hc.
    + eauto.
    + eapply IH. reflexivity.
  - destruct t1 as [|x [|y t1]]; cbn [app] in E; inversion E; subst.
    + discriminate Hc.
    + exfalso. rewrite Forall_forall in Hq.
      assert (Hin : In (EGet u hd o) (t1 ++ EGet u hd o :: rest))
        by (apply in_or_app; right; left; reflexivity).
      destruct (Hq _ Hin) as [_ [_ Hrq]]. discriminate Hrq.
  - destruct t1 as [|x t1]; cbn [app] in E; inversion E; subst.
    + destruct He as [_ [_ Hrq]]. discriminate Hrq.
    + eapply IH. reflexivity.
Qed.

Lemma paced_no_sleep_before_check t2 c2 t3 :
  Paced (t2 ++ c2 :: t3) -> filter is_check t2 = [] -> sleeps t2 = [].
Proof.
  intros H Hf.
  destruct (sleeps_cases t2) as [Hs|(a & s & b & ->)]; [exact Hs|].
  exfalso. rewrite <- app_assoc in H. cbn [app] in H.
  destruct (paced_sleep_prev _ _ _ H) as [_ (a' & c & b' & -> & Hc & _)].
  assert (Hin : In c ((a' ++ c :: b') ++ ESleep s :: b)%list)
    by (apply in_or_app; left; apply in_or_app; right; left; reflexivity).
  rewrite (filter_nil_notin _ _ _ Hf Hin) in Hc. discriminate.
Qed.

Lemma paced_between t1 c1 t2 c2 t3 :
  Paced (t1 ++ c1 :: t2 ++ c2 :: t3) -> is_check c1 = true -> is_check c2 = true ->
  filter is_check t2 = [] -> sleeps t2 = [5].
Proof.
  intros H Hc1 Hc2 Hf.
  destruct (paced_check_next _ _ _ H Hc1)
    as [(r' & E & Hp)|[(r & r' & E & Hr & Hp)|(u & o & r' & E & Hq)]].
  - destruct t2 as [|x t2]; cbn [app] in E; inversion E; subst.
    + discriminate Hc2.
    + cbn [filter is_check] in Hf.
      change (sleeps (ESleep 5 :: t2)) with ([5] ++ sleeps t2)%list.
      rewrite (paced_no_sleep_before_check _ _ _ Hp Hf). reflexivity.
  - destruct r; try discriminate Hr;
      (destruct t2 as [|x [|y t2]]; cbn [app] in E; inversion E; subst;
       [discriminate Hc2 | discriminate Hc2 |]);
      cbn [filter is_check] in Hf;
      match goal with
      | |- sleeps (?x :: ?y :: ?t) = _ =>
          change (sleeps (x :: y :: t)) with ([5] ++ sleeps t)%list
      end;
      rewrite (paced_no_sleep_before_check _ _ _ Hp Hf); reflexivity.
  - destruct t2 as [|x t2]; cbn [app] in E; inversion E; subst.
    + discriminate Hc2.
    + exfalso. rewrite Forall_forall in Hq.
      assert (Hin : In c2 (t2 ++ c2 :: t3)) by (apply in_or_app; right; left; reflexivity).
      destruct (Hq _ Hin) as [Hcc _]. congruence.
Qed.

(** *** Loop iterations and completed runs *)

Lemma dict_get_absent kvs k d : ~ In k (map fst kvs) -> dict_get kvs k d = d.
Proof.
  induction kvs as [|[k' v] rest IH]; intros Hn; [reflexivity|].
  simpl in *. destruct (String.eqb k' k) eqn:E.
  - apply String.eqb_eq in E. subst. exfalso. apply Hn. left. reflexivity.
  - apply IH. intros Hi. apply Hn. right. exact Hi.
Qed.

(** An account whose stripped token is empty: one warning, the skipped
    entry, and the loop goes on with the next account. *)
Lemma skip_account_run rt w kvs t rest h :
  dict_get kvs "token" (JStr "") = JStr t -> strip t = "" ->
  let warn := ELog Warning ("⚠️ 账户 " ++ account_name rt kvs ++ " 没有配置 token，跳过") in
  process_account rt w (JDict kvs) h = ([warn], Ok (skipped_entry (account_name rt kvs))) /\
  run_accounts rt w (JDict kvs :: rest) h =
    (let '(d, r) := run_accounts rt w rest (h ++ [warn])%list in
     (warn :: d,
      match r with Ok ms => Ok (skipped_entry (account_name rt kvs) :: ms) | Exc e => Exc e end)).
Proof.
  intros Ht Hs warn.
  assert (Hp : process_account rt w (JDict kvs) h =
                 ([warn], Ok (skipped_entry (account_name rt kvs)))).
  { unfold process_account. rewrite Ht, Hs. reflexivity. }
  split; [exact Hp|]. rewrite (run_accounts_cons _ _ _ _ _ _ _ Hp). reflexivity.
Qed.

Lemma drop_space_all l :
  forallb (fun ch => is_space (decode_char ch)) l = true -> drop_space l = [].
Proof.
  induction l as [|ch r IH]; simpl; [reflexivity|].
  intros H. apply andb_true_iff in H as [Hc Hr]. rewrite Hc. exact (IH Hr).
Qed.

Lemma strip_all_space t : all_space t = true -> strip t = "".
Proof. intros H. unfold strip. rewrite (drop_space_all _ H). reflexivity. Qed.

Lemma utf8_chars_nonempty s : s <> "" -> utf8_chars s <> [].
Proof.
  destruct s as [|a r]; [congruence|]. intros _. simpl.
  destruct (byte a <? 192); [discriminate|].
  destruct r as [|a1 r1]; [discriminate|].
  destruct (byte a <? 224); [discriminate|].
  destruct r1 as [|a2 r2]; [discriminate|].
  destruct (byte a <? 240); [discriminate|].
  destruct r2; discriminate.
Qed.

Lemma http_error_msg_spec code reason rurl :
  match http_error_msg code reason rurl with
  | None => ~ (400 <= code < 600)
  | Some e => 400 <= code < 600 /\
      exists kind, (kind = " Client Error: " \/ kind = " Server Error: ") /\
                   e = dec code ++ kind ++ reason ++ " for url: " ++ rurl
  end.
Proof.
  unfold http_error_msg.
  destruct (400 <=? code) eqn:H1, (code <? 500) eqn:H2; simpl;
    [split; [rewrite Z.leb_le in H1; rewrite Z.ltb_lt in H2; lia | eexists; split; [left|]; reflexivity]|..];
  destruct (500 <=? code) eqn:H3, (code <? 600) eqn:H4; simpl;
    rewrite ?Z.leb_le, ?Z.leb_gt, ?Z.ltb_lt, ?Z.ltb_ge in *;
    try (split; [lia | eexists; split; [right|]; reflexivity]); lia.
Qed.

Lemma run_accounts_str rt w x rest h :
  run_accounts rt w (JStr x :: rest) h = ([], Exc (attr_error (JStr x) "get")).
Proof. apply run_accounts_cons_exc. reflexivity. Qed.

(** Only a non-empty JSON list can be walked to the end. *)
Lemma completed_loop_is_list rt w v accounts h d ms :
  truthy v = true -> py_iter v = Ok accounts ->
  run_accounts rt w accounts h = (d, Ok ms) -> v = JList accounts.
Proof.
  intros Ht Hi Hr.
  destruct v as [| | | |str|l|kvs]; simpl in Hi; try discriminate.
  - assert (Hne : str <> "") by (intros ->; discriminate Ht).
    pose proof (utf8_chars_nonempty str Hne) as Hc.
    inversion Hi; subst. destruct (utf8_chars str) as [|ch chs]; [congruence|].
    cbn [map] in Hr. rewrite run_accounts_str in Hr. discriminate.
  - inversion Hi; subst. reflexivity.
  - destruct kvs as [|[k x] kvs]; [discriminate|]. inversion Hi; subst.
    cbn [map fst] in Hr. rewrite run_accounts_str in Hr. discriminate.
Qed.

(** A dict account with a non-blank token whose header can be sent: the
    check line, the GET with the stripped token, the pause, and the entry
    built from the check. *)
Lemma configured_account_run rt w kvs t h :
  dict_get kvs "token" (JStr "") = JStr t -> strip t <> "" -> header_ok (strip t) = true ->
  let name := account_name rt kvs in
  let log := ELog Info ("🔍 正在检查账户: " ++ name) in
  let get := EGet koyeb_url (koyeb_headers (strip t)) 30 in
  exists ok detail,
    check_koyeb_with_token rt w name (strip t) (h ++ [log])%list = ([get], Ok (ok, detail)) /\
    process_account rt w (JDict kvs) h =
      ([log; get; ESleep 5], Ok (if ok then success_entry name else failure_entry name detail)).
Proof.
  intros Ht Hs Hok name log get.
  pose proof (process_account_check rt w kvs t h Ht Hs) as Hp. cbv zeta in Hp.
  fold name log in Hp.
  pose proof (check_koyeb_with_token_run rt w name (strip t) (h ++ [log])%list Hs) as Hr.
  cbv zeta in Hr.
  destruct Hr as [[Hv _]|[(err & Hv & Hpe & _)|[_ ([ok detail] & Hc & _)]]].
  - unfold header_ok in Hok. rewrite Hv in Hok. discriminate.
  - unfold header_ok in Hok. rewrite Hpe, andb_false_r in Hok. discriminate.
  - exists ok, detail. split; [exact Hc|]. rewrite Hp, Hc. reflexivity.
Qed.

Lemma process_account_safe rt w a h :
  account_safe a = true -> exists d m, process_account rt w a h = (d, Ok m).
Proof.
  intros Hs.
  destruct (process_account_shape rt w a h)
    as [[_ (e & He & Hl)]|[(kvs & t & _ & _ & _ & Hp)
       |[(kvs & t & req & m & _ & _ & _ & Hp & _)|(kvs & t & e & -> & Ht & Hne & Hv & Hpe & _)]]].
  - exfalso. destruct a as [| | | | | |kvs]; try discriminate Hs.
    unfold account_safe in Hs. unfold loop_error in Hl.
    destruct (dict_get kvs "token" (JStr "")); discriminate.
  - do 2 eexists. exact Hp.
  - do 2 eexists. exact Hp.
  - exfalso. unfold account_safe in Hs. rewrite Ht in Hs.
    apply String.eqb_neq in Hne. unfold header_ok in Hs. rewrite Hne, Hv in Hs.
    destruct (putheader_error ("Bearer " ++ strip t)); [discriminate | congruence].
Qed.

(** A loop that runs to its end: one GET per checked token whose header
    can be sent, in order, and one pause per checked token. *)
Lemma run_accounts_checks rt w accounts h d ms :
  run_accounts rt w accounts h = (d, Ok ms) ->
  filter is_get d =
    map (fun t => EGet koyeb_url (koyeb_headers t) 30) (filter header_ok (checked_tokens accounts)) /\
  sleeps d = map (fun _ => 5) (checked_tokens accounts).
Proof.
  revert h d ms. induction accounts as [|a rest IH]; intros h d ms E.
  - simpl in E. inversion E; subst. split; reflexivity.
  - destruct (process_account rt w a h) as [d1 [m|e]] eqn:Hp.
    2:{ rewrite (run_accounts_cons_exc _ _ _ _ _ _ _ Hp) in E. discriminate. }
    rewrite (run_accounts_cons _ _ _ _ _ _ _ Hp) in E.
    destruct (run_accounts rt w rest (h ++ d1)%list) as [d2 [ms2|e2]] eqn:Hr;
      inversion E; subst.
    destruct (IH _ _ _ Hr) as [IHg IHs].
    rewrite filter_app, sleeps_app, IHg, IHs.
    destruct (process_account_shape rt w a h)
      as [[_ (e & He & _)]|[(kvs & t & -> & Ht & Hs & Hp')
         |[(kvs & t & req & m' & -> & Ht & Hs & Hp' & _ & Hreq)|(kvs & t & e & _ & _ & _ & _ & _ & Hp')]]];
      rewrite Hp in *; cbn [fst snd] in *.
    + discriminate.
    + inversion Hp'; subst. cbn [checked_tokens]. rewrite Ht, Hs. split; reflexivity.
    + inversion Hp'; subst. cbn [checked_tokens]. rewrite Ht.
      apply String.eqb_neq in Hs. rewrite Hs. cbn [filter].
      destruct Hreq as [[-> Hv]|[[-> Hok]|[-> [Hv Hpe]]]].
      * assert (Hf : header_ok (strip t) = false) by (unfold header_ok; rewrite Hv; reflexivity).
        rewrite Hf. split; reflexivity.
      * rewrite Hok. split; reflexivity.
      * assert (Hf : header_ok (strip t) = false).
        { unfold header_ok. rewrite Hv.
          destruct (putheader_error ("Bearer " ++ strip t)); [reflexivity | congruence]. }
        rewrite Hf. split; reflexivity.
    + inversion Hp'.
Qed.

(** *** Where the requests go *)

Lemma check_koyeb_with_token_requests rt w name token :
  Emits (request_ok w) (check_koyeb_with_token rt w name token).
Proof.
  intros h. destruct (String.eqb token "") eqn:E.
  - apply String.eqb_eq in E. subst. rewrite check_koyeb_with_token_empty. constructor.
  - apply String.eqb_neq in E.
    pose proof (check_koyeb_with_token_run rt w name token h E) as Hr. cbv zeta in Hr.
    destruct Hr as [[_ Hc]|[(err & _ & _ & Hc)|[_ (res & Hc & _)]]]; rewrite Hc.
    + constructor.
    + repeat constructor.
    + repeat constructor. exists token. reflexivity.
Qed.

Lemma process_account_requests rt w a : Emits (request_ok w) (process_account rt w a).
Proof.
  intros h. destruct (process_account_shape rt w a h)
    as [[-> _]|[(kvs & t & _ & _ & _ & ->)
       |[(kvs & t & req & m & _ & _ & _ & -> & _ & Hreq)|(kvs & t & e & _ & _ & _ & _ & _ & ->)]]];
    cbn [fst].
  - constructor.
  - repeat constructor.
  - constructor; [exact I|]. apply Forall_app. split; [|repeat constructor].
    destruct Hreq as [[-> _]|[[-> _]|[-> _]]]; repeat constructor.
    exists (strip t). reflexivity.
  - repeat constructor.
Qed.

Lemma run_accounts_requests rt w accounts : Emits (request_ok w) (run_accounts rt w accounts).
Proof.
  induction accounts as [|a rest IH]; simpl.
  - apply emits_ret.
  - apply emits_bind; [apply process_account_requests | intros m].
    apply emits_bind; [exact IH | intros ms]. apply emits_ret.
Qed.

(** ** The claims *)

(** C3 (amended): when [KOYEB_ACCOUNTS] is unset or empty, or
    [json.loads] rejects it ([JSONDecodeError]) or raises another error,
    [validate_env_variables] raises with the description [desc] of the
    fault, and [main] makes no request to Koyeb, logs the error line
    "❌ 脚本执行出错: <desc>" and hands exactly that line to
    [send_tg_message]: it is POSTed exactly once when Telegram is
    configured and the chat id and the line encode to UTF-8, and nothing
    is POSTed otherwise; the run ends normally unless Telegram is
    configured and one of them does not encode, in which case that
    [UnicodeEncodeError] escapes. *)
Theorem config_error_single_notification jl rt w h desc :
  ((getenv w "KOYEB_ACCOUNTS" = None \/ getenv w "KOYEB_ACCOUNTS" = Some "") /\
     desc = "❌ KOYEB_ACCOUNTS 环境变量未设置或格式错误")
  \/ (exists s, getenv w "KOYEB_ACCOUNTS" = Some s /\ s <> "" /\ jl s = DecodeError /\
       desc = "❌ KOYEB_ACCOUNTS JSON 格式无效")
  \/ (exists s, getenv w "KOYEB_ACCOUNTS" = Some s /\ s <> "" /\ jl s = LoadsRaises desc) ->
  let line := error_message desc in
  main_body jl rt w h = ([], Exc desc) /\
  main jl rt w h =
    (ELog Error line :: fst (send_tg_message w line (h ++ [ELog Error line])%list),
     snd (send_tg_message w line (h ++ [ELog Error line])%list)) /\
  filter is_request (fst (main jl rt w h)) = [] /\
  count_posts (fst (main jl rt w h)) = (if tg_sendable w line then 1 else 0)%nat /\
  posted_texts (fst (main jl rt w h)) = (if tg_sendable w line then [line] else []) /\
  (snd (main jl rt w h) = Ok tt <-> tg_configured w = false \/ tg_sendable w line = true) /\
  (forall e, snd (main jl rt w h) = Exc e ->
     utf8_error (tg_chat_id w) = Some e \/ utf8_error line = Some e).
Proof.
  intros H line.
  assert (Hb : main_body jl rt w h = ([], Exc desc)).
  { unfold main_body.
    assert (Hv : validate_env_variables jl w h = ([], Exc desc)).
    { unfold validate_env_variables.
      destruct H as [[[-> | ->] ->]|[(s & -> & Hne & Hj & ->)|(s & -> & Hne & Hj)]];
        try reflexivity; apply String.eqb_neq in Hne; rewrite Hne, Hj; reflexivity. }
    exact (bind_exc _ _ _ _ _ Hv). }
  split; [exact Hb|]. split; [exact (main_early_error _ _ _ _ _ Hb)|].
  exact (main_early_error_effects _ _ _ _ _ Hb).
Qed.

Lemma config_error_single_notification_witness :
  let w := mk_world (env_from tg_env) net_ok 0 in
  let desc := "❌ KOYEB_ACCOUNTS 环境变量未设置或格式错误" in
  ((getenv w "KOYEB_ACCOUNTS" = None \/ getenv w "KOYEB_ACCOUNTS" = Some "") /\ desc = desc)
  /\ count_posts (fst (main (fun _ => DecodeError) rt0 w [])) = 1%nat.
Proof.
  intros w desc.
  assert (H : (getenv w "KOYEB_ACCOUNTS" = None \/ getenv w "KOYEB_ACCOUNTS" = Some "") /\
              desc = desc) by (split; [left; reflexivity | reflexivity]).
  refine (conj H _).
  destruct (config_error_single_notification (fun _ => DecodeError) rt0 w [] desc (or_introl H))
    as (_ & _ & _ & Hc & _).
  rewrite Hc. vm_compute. reflexivity.
Defined.

(** C3 counterexample: [KOYEB_ACCOUNTS] unset and no Telegram variables:
    the error path is taken but no notification is sent at all. *)
Lemma config_error_no_notification_without_tg :
  let w := mk_world (env_from []) net_ok 0 in
  fst (main (fun _ => DecodeError) rt0 w []) =
    [ELog Error (error_message "❌ KOYEB_ACCOUNTS 环境变量未设置或格式错误");
     ELog Warning tg_skip_warning] /\
  count_posts (fst (main (fun _ => DecodeError) rt0 w [])) = 0%nat.
Proof. split; vm_compute; reflexivity. Qed.

(** C9 (amended): when [KOYEB_ACCOUNTS] parses to a falsy JSON value (an
    empty list or object, [null], [false], [0], [0.0] or [""]), [main]
    raises "no valid Koyeb account", makes no request to Koyeb, and hands
    exactly one error line to [send_tg_message]: it is POSTed exactly once
    when Telegram is configured and the chat id and the line encode to
    UTF-8 (the line always does), and nothing is POSTed otherwise. *)
Theorem falsy_config_error_path jl rt w h s v :
  getenv w "KOYEB_ACCOUNTS" = Some s -> s <> "" -> jl s = Loaded v -> truthy v = false ->
  let line := error_message "❌ 没有找到有效的 Koyeb 账户信息" in
  main_body jl rt w h = ([], Exc "❌ 没有找到有效的 Koyeb 账户信息") /\
  main jl rt w h =
    (ELog Error line :: fst (send_tg_message w line (h ++ [ELog Error line])%list),
     snd (send_tg_message w line (h ++ [ELog Error line])%list)) /\
  filter is_request (fst (main jl rt w h)) = [] /\
  count_posts (fst (main jl rt w h)) = (if tg_sendable w line then 1 else 0)%nat /\
  posted_texts (fst (main jl rt w h)) = (if tg_sendable w line then [line] else []) /\
  (snd (main jl rt w h) = Ok tt <-> tg_configured w = false \/ tg_sendable w line = true) /\
  utf8_error line = None.
Proof.
  intros He Hne Hj Ht line.
  assert (Hb : main_body jl rt w h = ([], Exc "❌ 没有找到有效的 Koyeb 账户信息")).
  { unfold main_body.
    rewrite (bind_ok _ _ _ _ _ (validate_env_variables_loaded jl w h s v He Hne Hj)).
    rewrite Ht. reflexivity. }
  destruct (main_early_error_effects _ _ _ _ _ Hb) as (H1 & H2 & H3 & H4 & _).
  split; [exact Hb|]. split; [exact (main_early_error _ _ _ _ _ Hb)|].
  refine (conj H1 (conj H2 (conj H3 (conj H4 _)))).
  vm_compute. reflexivity.
Qed.

Lemma falsy_config_error_path_witness :
  let w := mk_world (env_from (("KOYEB_ACCOUNTS", "[]") :: tg_env)) net_ok 0 in
  let jl := fun _ : string => Loaded (JList []) in
  getenv w "KOYEB_ACCOUNTS" = Some "[]" /\ "[]" <> "" /\ jl "[]" = Loaded (JList []) /\
  truthy (JList []) = false /\
  count_posts (fst (main jl rt0 w [])) = 1%nat.
Proof.
  intros w jl.
  assert (H1 : getenv w "KOYEB_ACCOUNTS" = Some "[]") by reflexivity.
  assert (H2 : "[]" <> "") by discriminate.
  assert (H3 : jl "[]" = Loaded (JList [])) by reflexivity.
  assert (H4 : truthy (JList []) = false) by reflexivity.
  refine (conj H1 (conj H2 (conj H3 (conj H4 _)))).
  destruct (falsy_config_error_path jl rt0 w [] "[]" (JList []) H1 H2 H3 H4)
    as (_ & _ & _ & Hc & _).
  rewrite Hc. vm_compute. reflexivity.
Defined.

(** C9 counterexample: [KOYEB_ACCOUNTS] is [[]] and no Telegram variables:
    the error path is taken but no notification is sent at all. *)
Lemma falsy_config_no_notification_without_tg :
  let w := mk_world (env_from [("KOYEB_ACCOUNTS", "[]")]) net_ok 0 in
  let jl := fun _ : string => Loaded (JList []) in
  fst (main jl rt0 w []) =
    [ELog Error (error_message "❌ 没有找到有效的 Koyeb 账户信息");
     ELog Warning tg_skip_warning] /\
  count_posts (fst (main jl rt0 w [])) = 0%nat.
Proof. split; vm_compute; reflexivity. Qed.

(** C5 (amended): every run hands one message to [send_tg_message] last --
    the summary when the [try] block completes, otherwise an error line
    that was logged before -- and nothing before it POSTs; the run POSTs
    exactly one notification, carrying that message, when Telegram is
    configured and the chat id and the message encode to UTF-8, and none
    otherwise; it ends normally exactly when Telegram is not configured or
    that POST was made. *)
Theorem one_notification_per_run jl rt w h :
  exists pre msg,
    fst (main jl rt w h) = (pre ++ fst (send_tg_message w msg (h ++ pre)))%list /\
    count_posts pre = 0%nat /\
    ((exists ms, msg = build_summary (current_time w) ms) \/
     (exists e, msg = error_message e /\ In (ELog Error msg) pre)) /\
    count_posts (fst (main jl rt w h)) = (if tg_sendable w msg then 1 else 0)%nat /\
    posted_texts (fst (main jl rt w h)) = (if tg_sendable w msg then [msg] else []) /\
    (snd (main jl rt w h) = Ok tt <-> tg_configured w = false \/ tg_sendable w msg = true).
Proof.
  destruct (main_single_send jl rt w h) as (pre & msg & Hf & Hs & Hc & Hm).
  exists pre, msg.
  assert (Hpre : forall l, count_posts l = 0%nat -> posted_texts l = []).
  { unfold count_posts. induction l as [|x l IH]; intros Hl; [reflexivity|].
    destruct x; cbn [filter is_post length] in Hl; try discriminate; apply IH; exact Hl. }
  pose proof (Hpre pre Hc) as Hp. clear Hpre.
  split; [exact Hf|]. split; [exact Hc|].
  split; [destruct Hm as [(ms & -> & _)|He]; [left; eauto | right; exact He]|].
  rewrite Hf, count_posts_app, posted_texts_app, Hc, Hp, send_tg_message_posts,
    send_tg_message_texts, Hs.
  split; [reflexivity|]. split; [reflexivity|]. apply send_tg_message_result.
Qed.

(** C5 counterexample: without the Telegram variables a complete run
    (one valid account) sends no notification at all. *)
Lemma no_notification_without_tg :
  let w := mk_world (env_from [("KOYEB_ACCOUNTS", "x")]) net_ok 0 in
  let jl := fun _ : string => Loaded (JList [JDict [("name", JStr "b"); ("token", JStr "valid")]]) in
  count_posts (fst (main jl rt0 w [])) = 0%nat.
Proof. vm_compute. reflexivity. Qed.

(** C6: when [TG_BOT_TOKEN] or [TG_CHAT_ID] is unset or empty,
    [send_tg_message] only logs a warning and issues no POST; the whole run
    then POSTs nothing, ends normally (no exception escapes [main]) and
    its trace records the warning. *)
Theorem tg_unconfigured_no_post jl rt w h :
  (getenv w "TG_BOT_TOKEN" = None \/ getenv w "TG_BOT_TOKEN" = Some "" \/
   getenv w "TG_CHAT_ID" = None \/ getenv w "TG_CHAT_ID" = Some "") ->
  (forall msg h', send_tg_message w msg h' = ([ELog Warning tg_skip_warning], Ok tt)) /\
  snd (main jl rt w h) = Ok tt /\
  count_posts (fst (main jl rt w h)) = 0%nat /\
  In (ELog Warning tg_skip_warning) (fst (main jl rt w h)).
Proof.
  intros H.
  assert (Hc : tg_configured w = false).
  { unfold tg_configured.
    destruct H as [-> | [-> | [-> | ->]]];
      destruct (getenv w "TG_BOT_TOKEN"), (getenv w "TG_CHAT_ID"); simpl;
      rewrite ?andb_false_r; reflexivity. }
  assert (Hs : forall msg, tg_sendable w msg = false)
    by (intros msg; unfold tg_sendable; rewrite Hc; reflexivity).
  split; [intros; apply send_tg_message_unconfigured; exact Hc|].
  destruct (main_single_send jl rt w h) as (pre & msg & Ht & Hr & Hp & _).
  split; [rewrite Hr, (send_tg_message_unconfigured _ _ _ Hc); reflexivity|].
  split.
  - rewrite Ht, count_posts_app, Hp, send_tg_message_posts, Hs. reflexivity.
  - rewrite Ht, (send_tg_message_unconfigured _ _ _ Hc). simpl.
    apply in_or_app. right. left. reflexivity.
Qed.

Lemma tg_unconfigured_no_post_witness :
  let w := mk_world (env_from [("KOYEB_ACCOUNTS", "x")]) net_ok 0 in
  let jl := fun _ : string => Loaded (JList [JDict [("name", JStr "b"); ("token", JStr "valid")]]) in
  getenv w "TG_BOT_TOKEN" = None /\ count_posts (fst (main jl rt0 w [])) = 0%nat.
Proof.
  intros w jl.
  assert (H : getenv w "TG_BOT_TOKEN" = None) by reflexivity.
  refine (conj H _).
  destruct (tg_unconfigured_no_post jl rt0 w [] (or_introl H)) as (_ & _ & Hp & _).
  exact Hp.
Defined.

(** C4: an account whose token is empty (or absent, which [get] turns into
    [""]) issues no HTTP request: its iteration only logs a warning and
    yields the skipped entry "Token not configured, skipped" naming the
    account, and the loop continues with the remaining accounts. *)
Theorem empty_token_skipped rt w kvs rest h :
  dict_get kvs "token" (JStr "") = JStr "" ->
  let warn := ELog Warning ("⚠️ 账户 " ++ account_name rt kvs ++ " 没有配置 token，跳过") in
  process_account rt w (JDict kvs) h = ([warn], Ok (skipped_entry (account_name rt kvs))) /\
  filter is_get (fst (process_account rt w (JDict kvs) h)) = [] /\
  run_accounts rt w (JDict kvs :: rest) h =
    (let '(d, r) := run_accounts rt w rest (h ++ [warn])%list in
     (warn :: d,
      match r with Ok ms => Ok (skipped_entry (account_name rt kvs) :: ms) | Exc e => Exc e end)).
Proof.
  intros Ht warn.
  destruct (skip_account_run rt w kvs "" rest h Ht eq_refl) as [Hp Hr].
  split; [exact Hp|]. split; [rewrite Hp; reflexivity | exact Hr].
Qed.

Lemma empty_token_skipped_witness :
  let kvs := [("name", JStr "a"); ("token", JStr "")] in
  dict_get kvs "token" (JStr "") = JStr "" /\
  snd (process_account rt0 (mk_world (env_from []) net_ok 0) (JDict kvs) []) =
    Ok (skipped_entry "a").
Proof.
  intros kvs.
  assert (Ht : dict_get kvs "token" (JStr "") = JStr "") by reflexivity.
  refine (conj Ht _).
  destruct (empty_token_skipped rt0 (mk_world (env_from []) net_ok 0) kvs [] [] Ht)
    as [Hp _].
  rewrite Hp. reflexivity.
Defined.

(** C10: the token is stripped before the emptiness test, so a token made
    only of whitespace (the Unicode whitespace of [str.strip()]) is
    handled exactly like an empty one: no request, a warning, the skipped
    entry, and the loop continues. *)
Theorem whitespace_token_skipped rt w kvs t rest h :
  dict_get kvs "token" (JStr "") = JStr t -> all_space t = true ->
  let warn := ELog Warning ("⚠️ 账户 " ++ account_name rt kvs ++ " 没有配置 token，跳过") in
  strip t = "" /\
  process_account rt w (JDict kvs) h = ([warn], Ok (skipped_entry (account_name rt kvs))) /\
  filter is_request (fst (process_account rt w (JDict kvs) h)) = [] /\
  run_accounts rt w (JDict kvs :: rest) h =
    (let '(d, r) := run_accounts rt w rest (h ++ [warn])%list in
     (warn :: d,
      match r with Ok ms => Ok (skipped_entry (account_name rt kvs) :: ms) | Exc e => Exc e end)).
Proof.
  intros Ht Hsp warn.
  pose proof (strip_all_space t Hsp) as Hs.
  destruct (skip_account_run rt w kvs t rest h Ht Hs) as [Hp Hr].
  split; [exact Hs|]. split; [exact Hp|]. split; [rewrite Hp; reflexivity | exact Hr].
Qed.

(** The token: a space, an ideographic space (U+3000) and a tab. *)
Lemma whitespace_token_skipped_witness :
  let t := " 　" ++ String (ascii_of_nat 9) EmptyString in
  let kvs := [("name", JStr "a"); ("token", JStr t)] in
  dict_get kvs "token" (JStr "") = JStr t /\ all_space t = true /\
  snd (process_account rt0 (mk_world (env_from []) net_ok 0) (JDict kvs) []) =
    Ok (skipped_entry "a").
Proof.
  intros t kvs.
  assert (Ht : dict_get kvs "token" (JStr "") = JStr t) by reflexivity.
  assert (Hs : all_space t = true) by (vm_compute; reflexivity).
  refine (conj Ht (conj Hs _)).
  destruct (whitespace_token_skipped rt0 (mk_world (env_from []) net_ok 0)
              kvs t [] [] Ht Hs) as (_ & Hp & _).
  rewrite Hp. reflexivity.
Defined.

(** C2 (amended): for a non-empty token whose header value
    "Bearer <token>" passes [requests]' header check and is accepted by
    [http.client] (it encodes to latin-1 and has no bare CR or LF),
    [check_koyeb_with_token] issues one GET and does not raise; it reports
    success, always with the detail "Token 校验成功" (validation
    succeeded), exactly when the answer is an HTTP response whose status
    lies outside 400-599 (so for 2xx, and also for 1xx and 3xx); a 4xx or
    5xx status gives failure with the [HTTPError] text
    "<code> Client Error: <reason> for url: <url>" (or "Server Error"),
    which carries the status code and reason unchanged. *)
Theorem check_status_classification rt w name token h :
  token <> "" ->
  header_value_valid ("Bearer " ++ token) = true ->
  putheader_error ("Bearer " ++ token) = None ->
  let get := EGet koyeb_url (koyeb_headers token) 30 in
  exists res,
    check_koyeb_with_token rt w name token h = ([get], Ok res) /\
    (fst res = true <->
       exists code reason rurl, net w (h ++ [get])%list = HResp code reason rurl /\
                                ~ (400 <= code < 600)) /\
    (fst res = true -> snd res = "Token 校验成功") /\
    (forall code reason rurl,
       net w (h ++ [get])%list = HResp code reason rurl -> 200 <= code < 300 ->
       res = (true, "Token 校验成功")) /\
    (forall code reason rurl,
       net w (h ++ [get])%list = HResp code reason rurl -> 400 <= code < 600 ->
       exists kind, (kind = " Client Error: " \/ kind = " Server Error: ") /\
                    res = (false, dec code ++ kind ++ reason ++ " for url: " ++ rurl)).
Proof.
  intros Hne Hv Hp get.
  pose proof (check_koyeb_with_token_run rt w name token h Hne) as Hr. cbv zeta in Hr.
  fold get in Hr.
  destruct Hr as [[Hv' _]|[(err & _ & Hp' & _)|[_ (res & Hrun & Hres)]]];
    [congruence | congruence |].
  exists res. split; [exact Hrun|].
  destruct (net w (h ++ [get])%list) as [c r u|e|e] eqn:Hn.
  - pose proof (http_error_msg_spec c r u) as Hs.
    destruct (http_error_msg c r u) as [e|]; subst res; simpl.
    + destruct Hs as [Hc (kind & Hk & ->)].
      split; [split; [discriminate | intros (c' & r' & u' & E & Hc'); inversion E; subst; lia]|].
      split; [discriminate|].
      split; [intros c' r' u' E Hc'; inversion E; subst; lia|].
      intros c' r' u' E _. inversion E; subst. eauto.
    + split; [split; [intros _; exists c, r, u; auto | reflexivity]|].
      split; [reflexivity|].
      split; [reflexivity|].
      intros c' r' u' E Hc'. inversion E; subst. contradiction.
  - subst res. simpl.
    split; [split; [discriminate | intros (c' & r' & u' & E & _); discriminate]|].
    split; [discriminate|]. split; intros c' r' u' E; discriminate.
  - subst res. simpl.
    split; [split; [discriminate | intros (c' & r' & u' & E & _); discriminate]|].
    split; [discriminate|]. split; intros c' r' u' E; discriminate.
Qed.

Lemma check_status_classification_witness :
  let w := mk_world (env_from []) (fun _ => HResp 401 "Unauthorized" koyeb_url) 0 in
  "bad" <> "" /\ header_value_valid ("Bearer " ++ "bad") = true /\
  putheader_error ("Bearer " ++ "bad") = None /\
  exists kind, snd (check_koyeb_with_token rt0 w "c" "bad" []) =
                 Ok (false, "401" ++ kind ++ "Unauthorized" ++ " for url: " ++ koyeb_url).
Proof.
  intros w.
  assert (Hne : "bad" <> "") by discriminate.
  assert (Hv : header_value_valid ("Bearer " ++ "bad") = true) by (vm_compute; reflexivity).
  assert (Hp : putheader_error ("Bearer " ++ "bad") = None) by (vm_compute; reflexivity).
  refine (conj Hne (conj Hv (conj Hp _))).
  destruct (check_status_classification rt0 w "c" "bad" [] Hne Hv Hp)
    as (res & Hrun & _ & _ & _ & H4).
  destruct (H4 401 "Unauthorized" koyeb_url eq_refl) as (kind & _ & Hres); [lia|].
  exists kind. rewrite Hrun, Hres. reflexivity.
Defined.

(** C2 counterexample: a 304 answer (not 2xx) is classified as success. *)
Lemma status_304_is_success :
  let w := mk_world (env_from []) (fun _ => HResp 304 "Not Modified" koyeb_url) 0 in
  ~ (200 <= 304 < 300) /\
  snd (check_koyeb_with_token rt0 w "b" "valid" []) = Ok (true, "Token 校验成功").
Proof. split; [lia | vm_compute; reflexivity]. Qed.

(** C8: in every run, an account check (the log line "🔍 正在检查账户:
    <name>" that opens it) is followed by [time.sleep(5)] right after its
    request, whatever the outcome (or right after the line when [requests]
    rejects the header, with no request), unless the check raises, which
    ends the loop: then only its connection follows, and no other check
    and no sleep.  Every sleep is such a 5-second sleep, and every GET is
    directly followed by it.  Hence between two successive checks there is
    exactly one pause, of 5 seconds, whatever the first check gave and
    whether the next account is checked or skipped. *)
Theorem sleep_between_checks jl rt w h :
  (forall t1 u hd o rest,
     fst (main jl rt w h) = (t1 ++ EGet u hd o :: rest)%list ->
     exists rest', rest = ESleep 5 :: rest') /\
  (forall t1 s rest,
     fst (main jl rt w h) = (t1 ++ ESleep s :: rest)%list ->
     s = 5 /\ exists a c b, t1 = (a ++ c :: b)%list /\ is_check c = true /\
                            (b = [] \/ exists r, b = [r] /\ is_request r = true)) /\
  (forall t1 c rest,
     fst (main jl rt w h) = (t1 ++ c :: rest)%list -> is_check c = true ->
     (exists rest', rest = ESleep 5 :: rest') \/
     (exists r rest', rest = r :: ESleep 5 :: rest' /\ is_request r = true) \/
     (exists u o rest', rest = EConnect u o :: rest' /\
        filter is_check rest' = [] /\ sleeps rest' = [])) /\
  (forall t1 c1 t2 c2 t3,
     fst (main jl rt w h) = (t1 ++ c1 :: t2 ++ c2 :: t3)%list ->
     is_check c1 = true -> is_check c2 = true -> filter is_check t2 = [] ->
     sleeps t2 = [5]).
Proof.
  pose proof (main_paced jl rt w h) as Hp.
  split; [|split; [|split]].
  - intros t1 u hd o rest E. rewrite E in Hp. exact (paced_get_next _ _ _ _ _ Hp).
  - intros t1 s rest E. rewrite E in Hp. exact (paced_sleep_prev _ _ _ Hp).
  - intros t1 c rest E Hc. rewrite E in Hp.
    destruct (paced_check_next _ _ _ Hp Hc)
      as [(r' & -> & _)|[(r & r' & -> & Hr & _)|(u & o & r' & -> & Hq)]].
    + left. eauto.
    + right; left. eauto.
    + right; right. exists u, o, r'. split; [reflexivity|]. exact (sleeps_nil_quiet _ Hq).
  - intros t1 c1 t2 c2 t3 E Hc1 Hc2 Hf. rewrite E in Hp.
    exact (paced_between _ _ _ _ _ Hp Hc1 Hc2 Hf).
Qed.

(** Accounts "b" (checked), "c" (a token with a line break: [requests]
    rejects the header, no request) and "d" (checked): one pause between
    the checks of "c" and "d". *)
Lemma sleep_between_checks_witness :
  let w := mk_world (env_from [("KOYEB_ACCOUNTS", "x")]) net_ok 0 in
  let jl := fun _ : string =>
    Loaded (JList [JDict [("name", JStr "b"); ("token", JStr "valid")];
                   JDict [("name", JStr "c"); ("token", JStr ("a" ++ nl ++ "b"))];
                   JDict [("name", JStr "d"); ("token", JStr "k")]]) in
  let t1 := [ELog Info ("🔍 正在检查账户: " ++ "b"); EGet koyeb_url (koyeb_headers "valid") 30;
             ESleep 5] in
  let t3 := [EGet koyeb_url (koyeb_headers "k") 30; ESleep 5; ELog Info done_log;
             ELog Warning tg_skip_warning] in
  fst (main jl rt0 w []) =
    (t1 ++ ELog Info ("🔍 正在检查账户: " ++ "c") ::
       [ESleep 5] ++ ELog Info ("🔍 正在检查账户: " ++ "d") :: t3)%list /\
  sleeps [ESleep 5] = [5].
Proof.
  intros w jl t1 t3.
  assert (E : fst (main jl rt0 w []) =
    (t1 ++ ELog Info ("🔍 正在检查账户: " ++ "c") ::
       [ESleep 5] ++ ELog Info ("🔍 正在检查账户: " ++ "d") :: t3)%list)
    by (vm_compute; reflexivity).
  refine (conj E _).
  destruct (sleep_between_checks jl rt0 w []) as (_ & _ & _ & H4).
  exact (H4 _ _ _ _ _ E (is_check_log "c") (is_check_log "d") eq_refl).
Defined.

(** C1 (amended): when a run completes its [try] block (no exception),
    the configuration is a JSON list of accounts, the loop yields exactly
    one entry per account, in the order of the list, each entry naming its
    account (skipped, success or failure entry), and the summary built
    from these entries, joined by newlines, is the message handed to
    [send_tg_message].  (A skipped entry itself spans two lines.) *)
Theorem entries_per_account jl rt w h d :
  main_body jl rt w h = (d, Ok tt) ->
  exists s accounts ms d_loop,
    getenv w "KOYEB_ACCOUNTS" = Some s /\ jl s = Loaded (JList accounts) /\
    run_accounts rt w accounts h = (d_loop, Ok ms) /\
    length ms = length accounts /\
    Forall2 (entry_for rt) accounts ms /\
    d = (d_loop ++ ELog Info done_log ::
           fst (send_tg_message w (build_summary (current_time w) ms)
                  (h ++ d_loop ++ [ELog Info done_log])))%list.
Proof.
  intros E.
  destruct (main_body_cases jl rt w h)
    as [[e [He _]]|(v & a & dl & ms & Hv & Ht & Hi & Hr & Hb)].
  - rewrite E in He. discriminate.
  - rewrite E in Hb. inversion Hb; subst d.
    destruct (validate_env_variables_ok_inv _ _ _ _ Hv) as (s & Hs & _ & Hj).
    pose proof (completed_loop_is_list _ _ _ _ _ _ _ Ht Hi Hr) as ->.
    pose proof (run_accounts_entries _ _ _ _ _ _ Hr) as Hf.
    exists s, a, ms, dl. repeat split; auto.
    symmetry. exact (Forall2_length Hf).
Qed.

Lemma entries_per_account_witness :
  let w := mk_world (env_from (("KOYEB_ACCOUNTS", "x") :: tg_env)) net_ok 0 in
  let accounts := [JDict [("name", JStr "a"); ("token", JStr "")];
                   JDict [("name", JStr "b"); ("token", JStr "valid")]] in
  let jl := fun _ : string => Loaded (JList accounts) in
  main_body jl rt0 w [] = (fst (main_body jl rt0 w []), Ok tt) /\
  exists ms, ms = [skipped_entry "a"; success_entry "b"] /\
    exists d_loop, run_accounts rt0 w accounts [] = (d_loop, Ok ms) /\ length ms = 2%nat.
Proof.
  intros w accounts jl.
  assert (E : main_body jl rt0 w [] = (fst (main_body jl rt0 w []), Ok tt))
    by (vm_compute; reflexivity).
  refine (conj E _).
  destruct (entries_per_account jl rt0 w [] _ E)
    as (s & accs & ms & d_loop & Hs & Hj & Hr & Hl & _ & _).
  simpl in Hs. inversion Hs; subst s. simpl in Hj. inversion Hj; subst accs.
  exists ms. split.
  - rewrite (surjective_pairing (run_accounts _ _ _ _)) in Hr. vm_compute in Hr.
    inversion Hr. reflexivity.
  - exists d_loop. split; [exact Hr|]. rewrite Hl. reflexivity.
Defined.

(** C1 counterexample: one account with an empty token gives two lines,
    not one, between the header block and the completion block. *)
Lemma skipped_account_two_lines :
  let w := mk_world (env_from (("KOYEB_ACCOUNTS", "x") :: tg_env)) net_ok 0 in
  let jl := fun _ : string => Loaded (JList [JDict [("name", JStr "a"); ("token", JStr "")]]) in
  map lines (posted_texts (fst (main jl rt0 w []))) =
    [["⏰ 北京时间: 1970-01-01 08:00"; ""; "⚠️ 账户: a"; "Token 未配置，跳过"; "";
      "✅ 任务执行完成"]].
Proof. vm_compute. reflexivity. Qed.
(** C7 (amended): the summary is the header line "⏰ 北京时间: <time>",
    where <time> is the current time shifted by the fixed UTC+8 offset and
    written YYYY-MM-DD HH:MM (four-digit year for years 1000-9999), then a
    blank line, then the lines of the per-account entries in order (a
    skipped entry contributes two lines), then a blank line and the fixed
    completion line "✅ 任务执行完成". *)
Theorem summary_layout w ms :
  ms <> [] ->
  1000 <= c_year (civil_of_unix (clock w + 8 * 3600)) <= 9999 ->
  let c := civil_of_unix (clock w + 8 * 3600) in
  lines (build_summary (current_time w) ms) =
    ("⏰ 北京时间: " ++ current_time w) :: "" ::
      (concat (map lines ms) ++ [""; "✅ 任务执行完成"])%list /\
  (exists Y Mo D H Mi,
     current_time w = Y ++ "-" ++ Mo ++ "-" ++ D ++ " " ++ H ++ ":" ++ Mi /\
     String.length Y = 4%nat /\ String.length Mo = 2%nat /\ String.length D = 2%nat /\
     String.length H = 2%nat /\ String.length Mi = 2%nat /\
     all_digits (Y ++ Mo ++ D ++ H ++ Mi) = true /\
     dec_value Y = c_year c /\ dec_value Mo = c_month c /\ dec_value D = c_day c /\
     dec_value H = c_hour c /\ dec_value Mi = c_minute c) /\
  1 <= c_month c <= 12 /\ 1 <= c_day c <= 31 /\ 0 <= c_hour c <= 23 /\ 0 <= c_minute c <= 59.
Proof.
  intros Hne Hy c.
  pose proof (civil_ranges (clock w + 8 * 3600)) as (Hm & Hd & Hh & Hmi). fold c in Hm, Hd, Hh, Hmi.
  assert (Two : forall n, 0 <= n <= 99 ->
            String.length (pad2 n) = 2%nat /\ all_digits (pad2 n) = true /\ dec_value (pad2 n) = n).
  { intros n Hn. pose proof (two_ok_all n Hn) as Hk. unfold two_ok in Hk.
    rewrite !andb_true_iff, Nat.eqb_eq, Z.eqb_eq in Hk. tauto. }
  pose proof (year_ok_all _ Hy) as Yk. unfold year_ok in Yk.
  rewrite !andb_true_iff, Nat.eqb_eq, Z.eqb_eq in Yk. fold c in Yk.
  destruct Yk as [[Yl Yd] Yv].
  destruct (Two (c_month c) ltac:(lia)) as (Ml & Md & Mv).
  destruct (Two (c_day c) ltac:(lia)) as (Dl & Dd & Dv).
  destruct (Two (c_hour c) ltac:(lia)) as (Hl & Hdg & Hv).
  destruct (Two (c_minute c) ltac:(lia)) as (Il & Id & Iv).
  assert (Hct : current_time w = dec (c_year c) ++ "-" ++ pad2 (c_month c) ++ "-" ++
                  pad2 (c_day c) ++ " " ++ pad2 (c_hour c) ++ ":" ++ pad2 (c_minute c))
    by reflexivity.
  split.
  - apply lines_build_summary; [|exact Hne].
    rewrite Hct, !no_nl_app, (all_digits_no_nl _ Yd), (all_digits_no_nl _ Md),
      (all_digits_no_nl _ Dd), (all_digits_no_nl _ Hdg), (all_digits_no_nl _ Id).
    reflexivity.
  - split; [|tauto].
    exists (dec (c_year c)), (pad2 (c_month c)), (pad2 (c_day c)), (pad2 (c_hour c)),
           (pad2 (c_minute c)).
    rewrite !all_digits_app, Yd, Md, Dd, Hdg, Id.
    repeat split; assumption.
Qed.

Lemma summary_layout_witness :
  let w := mk_world (env_from []) net_ok 0 in
  [skipped_entry "a"] <> [] /\
  1000 <= c_year (civil_of_unix (clock w + 8 * 3600)) <= 9999 /\
  lines (build_summary (current_time w) [skipped_entry "a"]) =
    ("⏰ 北京时间: " ++ current_time w) :: "" ::
      (concat (map lines [skipped_entry "a"]) ++ [""; "✅ 任务执行完成"])%list.
Proof.
  intros w.
  assert (H1 : [skipped_entry "a"] <> []) by discriminate.
  assert (H2 : 1000 <= c_year (civil_of_unix (clock w + 8 * 3600)) <= 9999)
    by (vm_compute; split; discriminate).
  refine (conj H1 (conj H2 _)).
  destruct (summary_layout w [skipped_entry "a"] H1 H2) as [Hl _]. exact Hl.
Defined.

(** C7 counterexample: with a skipped account then a checked one, the
    second line after the header block is not the second account's
    result but the continuation of the first entry. *)
Lemma summary_lines_not_one_per_account :
  let w := mk_world (env_from (("KOYEB_ACCOUNTS", "x") :: tg_env)) net_ok 0 in
  let jl := fun _ : string =>
    Loaded (JList [JDict [("name", JStr "a"); ("token", JStr "")];
                 JDict [("name", JStr "b"); ("token", JStr "valid")]]) in
  map lines (posted_texts (fst (main jl rt0 w []))) =
    [["⏰ 北京时间: 1970-01-01 08:00"; ""; "⚠️ 账户: a"; "Token 未配置，跳过";
      "✅ 账户: b Token 校验成功"; ""; "✅ 任务执行完成"]].
Proof. vm_compute. reflexivity. Qed.


(** ** Further properties of the script *)

(** X2: when [TG_BOT_TOKEN] and [TG_CHAT_ID] are set and non-empty,
    [send_tg_message] first encodes the form to UTF-8: if the chat id or
    the message holds a lone surrogate it raises that [UnicodeEncodeError]
    and sends nothing; otherwise it issues exactly one POST to the bot's
    [sendMessage] URL, with the chat id, the message unchanged and Markdown
    parse mode, and a 30 s timeout, does not raise, and logs one line:
    success when the answer's status lies outside 400-599, otherwise an
    error line with the [HTTPError] text, or with the text of the timeout
    or request error. *)
Theorem send_tg_message_configured w msg h b c :
  getenv w "TG_BOT_TOKEN" = Some b -> getenv w "TG_CHAT_ID" = Some c -> b <> "" -> c <> "" ->
  let post := EPost ("https://api.telegram.org/bot" ++ b ++ "/sendMessage")
                [("chat_id", c); ("text", msg); ("parse_mode", "Markdown")] 30 in
  (forall e, utf8_error c = Some e \/ (utf8_error c = None /\ utf8_error msg = Some e) ->
     send_tg_message w msg h = ([], Exc e)) /\
  (utf8_error c = None -> utf8_error msg = None ->
   exists lg, send_tg_message w msg h = ([post; lg], Ok tt) /\
    ((exists code reason u, net w (h ++ [post])%list = HResp code reason u /\ ~ (400 <= code < 600)) ->
       lg = ELog Info "✅ Telegram 消息发送成功") /\
    (forall code reason u, net w (h ++ [post])%list = HResp code reason u -> 400 <= code < 600 ->
       exists kind, (kind = " Client Error: " \/ kind = " Server Error: ") /\
         lg = ELog Error ("❌ 发送 Telegram 消息失败: " ++ dec code ++ kind ++ reason ++ " for url: " ++ u)) /\
    (forall m, net w (h ++ [post])%list = HTimeout m \/ net w (h ++ [post])%list = HReqErr m ->
       lg = ELog Error ("❌ 发送 Telegram 消息失败: " ++ m))).
Proof.
  intros Hb Hc Hb' Hc' post.
  apply String.eqb_neq in Hb', Hc'.
  unfold send_tg_message. rewrite Hb, Hc. cbv beta iota zeta. rewrite Hb', Hc'. cbv beta iota.
  change (form_error [("chat_id", c); ("text", msg); ("parse_mode", "Markdown")])
    with (form_error (tg_form c msg)).
  rewrite form_error_tg.
  split.
  { intros e [Hu|[Hu Hm]]; rewrite Hu; [reflexivity|]. rewrite Hm. reflexivity. }
  intros Hu Hm. rewrite Hu, Hm.
  fold post. unfold bind, emit, net_resp. cbv beta iota.
  cbv beta iota delta [orb]. rewrite ?app_nil_r.
  destruct (net w (h ++ [post])%list) as [code reason u|m|m] eqn:Hn.
  - pose proof (http_error_msg_spec code reason u) as Hs.
    destruct (http_error_msg code reason u) as [e|]; simpl.
    + destruct Hs as [Hc0 (kind & Hk & ->)]. eexists; split; [reflexivity|].
      split; [intros (c' & r' & u' & E & Hcc); inversion E; subst; lia|].
      split; [intros c' r' u' E _; inversion E; subst; eauto|].
      intros m [E|E]; discriminate.
    + eexists; split; [reflexivity|].
      split; [reflexivity|].
      split; [intros c' r' u' E Hcc; inversion E; subst; contradiction|].
      intros m [E|E]; discriminate.
  - simpl. eexists; split; [reflexivity|].
    split; [intros (c' & r' & u' & E & _); discriminate|].
    split; [intros c' r' u' E; discriminate|].
    intros m' [E|E]; inversion E; reflexivity.
  - simpl. eexists; split; [reflexivity|].
    split; [intros (c' & r' & u' & E & _); discriminate|].
    split; [intros c' r' u' E; discriminate|].
    intros m' [E|E]; inversion E; reflexivity.
Qed.

Lemma send_tg_message_configured_witness :
  let w := mk_world (env_from tg_env) (fun _ => HResp 400 "Bad Request" "u") 0 in
  getenv w "TG_BOT_TOKEN" = Some "123:abc" /\ getenv w "TG_CHAT_ID" = Some "42" /\
  "123:abc" <> "" /\ "42" <> "" /\ utf8_error "42" = None /\ utf8_error "hi" = None /\
  exists kind, snd (send_tg_message w "hi" []) = Ok tt /\
    List.nth 1 (fst (send_tg_message w "hi" [])) (ESleep 0) =
      ELog Error ("❌ 发送 Telegram 消息失败: " ++ "400" ++ kind ++ "Bad Request" ++ " for url: " ++ "u").
Proof.
  intros w.
  assert (H1 : getenv w "TG_BOT_TOKEN" = Some "123:abc") by reflexivity.
  assert (H2 : getenv w "TG_CHAT_ID" = Some "42") by reflexivity.
  assert (H3 : "123:abc" <> "") by discriminate.
  assert (H4 : "42" <> "") by discriminate.
  assert (H5 : utf8_error "42" = None) by (vm_compute; reflexivity).
  assert (H6 : utf8_error "hi" = None) by (vm_compute; reflexivity).
  refine (conj H1 (conj H2 (conj H3 (conj H4 (conj H5 (conj H6 _)))))).
  destruct (send_tg_message_configured w "hi" [] "123:abc" "42" H1 H2 H3 H4) as [_ Hok].
  destruct (Hok H5 H6) as (lg & Hs & _ & Herr & _).
  destruct (Herr 400 "Bad Request" "u" eq_refl) as (kind & _ & Hl); [lia|].
  exists kind. rewrite Hs, Hl. split; reflexivity.
Defined.

(** X3: the only exception that escapes [main] is the [UnicodeEncodeError]
    of the Telegram form raised from the [except] handler: Telegram is
    configured, nothing was POSTed, and the error is that of the chat id
    or of an error line the run logged. *)
Theorem main_raise_cause jl rt w h e :
  snd (main jl rt w h) = Exc e ->
  tg_configured w = true /\ count_posts (fst (main jl rt w h)) = 0%nat /\
  (utf8_error (tg_chat_id w) = Some e \/
   exists line, In (ELog Error line) (fst (main jl rt w h)) /\ utf8_error line = Some e).
Proof.
  intros He.
  destruct (main_single_send jl rt w h) as (pre & msg & Hf & Hs & Hc & Hm).
  rewrite Hs in He.
  destruct (send_tg_message_raises _ _ _ _ He) as (Hn & Hconf & _ & Hu).
  rewrite Hn, app_nil_r in Hf. rewrite Hf.
  split; [exact Hconf|]. split; [exact Hc|].
  destruct Hm as [(ms & _ & Hok)|(e' & _ & Hin)].
  - rewrite Hs, He in Hok. discriminate.
  - destruct Hu as [Hu|Hu]; [left; exact Hu | right; exists msg; split; assumption].
Qed.

(** TG_CHAT_ID holds the lone surrogate U+DCFF. *)
Lemma main_raise_cause_witness :
  let w := mk_world (env_from [("TG_BOT_TOKEN", "123:abc"); ("TG_CHAT_ID", lone_surrogate)])
                    net_ok 0 in
  snd (main (fun _ => DecodeError) rt0 w []) =
    Exc "'utf-8' codec can't encode character '\udcff' in position 0: surrogates not allowed" /\
  tg_configured w = true.
Proof.
  intros w.
  assert (H : snd (main (fun _ => DecodeError) rt0 w []) =
    Exc "'utf-8' codec can't encode character '\udcff' in position 0: surrogates not allowed")
    by (vm_compute; reflexivity).
  refine (conj H _).
  destruct (main_raise_cause _ _ _ _ _ H) as [Hc _]. exact Hc.
Defined.

(** X5: for an account whose token is a string that is not blank and whose
    header value "Bearer <stripped token>" [requests] and [http.client]
    accept, one loop iteration logs "🔍 正在检查账户: <name>", sends one GET
    carrying the stripped token as Bearer credential, then sleeps 5 s
    whatever the outcome, and yields the success entry or the failure entry
    with the check's detail. *)
Theorem configured_account_checked rt w kvs t h :
  dict_get kvs "token" (JStr "") = JStr t -> strip t <> "" -> header_ok (strip t) = true ->
  let name := account_name rt kvs in
  let log := ELog Info ("🔍 正在检查账户: " ++ name) in
  let get := EGet koyeb_url (koyeb_headers (strip t)) 30 in
  exists ok detail,
    check_koyeb_with_token rt w name (strip t) (h ++ [log])%list = ([get], Ok (ok, detail)) /\
    process_account rt w (JDict kvs) h =
      ([log; get; ESleep 5], Ok (if ok then success_entry name else failure_entry name detail)).
Proof. apply configured_account_run. Qed.

Lemma configured_account_checked_witness :
  let w := mk_world (env_from []) net_ok 0 in
  let kvs := [("name", JStr "a"); ("token", JStr " k ")] in
  dict_get kvs "token" (JStr "") = JStr " k " /\ strip " k " <> "" /\
  header_ok (strip " k ") = true /\
  process_account rt0 w (JDict kvs) [] =
    ([ELog Info ("🔍 正在检查账户: " ++ "a"); EGet koyeb_url (koyeb_headers "k") 30; ESleep 5],
     Ok (success_entry "a")).
Proof.
  intros w kvs.
  assert (H1 : dict_get kvs "token" (JStr "") = JStr " k ") by reflexivity.
  assert (H2 : strip " k " <> "") by (vm_compute; discriminate).
  assert (H3 : header_ok (strip " k ") = true) by (vm_compute; reflexivity).
  refine (conj H1 (conj H2 (conj H3 _))).
  destruct (configured_account_checked rt0 w kvs " k " [] H1 H2 H3)
    as (ok & detail & Hc & Hp).
  rewrite Hp. vm_compute in Hc. inversion Hc. reflexivity.
Defined.

(** X6: the display name of an account is its "name" when that is a
    non-empty string; when "name" is missing, null or empty it is its
    "email" if that is a non-empty string; when both are missing, null or
    empty it is "未命名账号". *)
Theorem account_name_fallback rt kvs :
  let blank k := ~ In k (map fst kvs) \/ dict_get kvs k JNull = JNull \/
                 dict_get kvs k JNull = JStr "" in
  (forall n, dict_get kvs "name" JNull = JStr n -> n <> "" -> account_name rt kvs = n) /\
  (forall e, blank "name" -> dict_get kvs "email" JNull = JStr e -> e <> "" ->
     account_name rt kvs = e) /\
  (blank "name" -> blank "email" -> account_name rt kvs = "未命名账号").
Proof.
  intros blank.
  assert (Hb : forall k, blank k -> truthy (dict_get kvs k JNull) = false).
  { intros k [Ha|[E|E]]; [rewrite (dict_get_absent _ _ _ Ha)|rewrite E|rewrite E]; reflexivity. }
  assert (Hs : forall k x, dict_get kvs k JNull = JStr x -> x <> "" ->
                 truthy (dict_get kvs k JNull) = true).
  { intros k x E Hx. rewrite E. simpl. apply String.eqb_neq in Hx. rewrite Hx. reflexivity. }
  unfold account_name, py_or.
  split; [|split].
  - intros n E Hn. rewrite (Hs _ _ E Hn), E. reflexivity.
  - intros e Hn E He. rewrite (Hb _ Hn), (Hs _ _ E He), E. reflexivity.
  - intros Hn He. rewrite (Hb _ Hn), (Hb _ He). reflexivity.
Qed.

Lemma account_name_fallback_witness :
  account_name rt0 [("name", JStr ""); ("email", JStr "m@x")] = "m@x" /\
  account_name rt0 [("token", JStr "k")] = "未命名账号".
Proof.
  destruct (account_name_fallback rt0 [("name", JStr ""); ("email", JStr "m@x")])
    as (_ & H2 & _).
  destruct (account_name_fallback rt0 [("token", JStr "k")]) as (_ & _ & H3).
  split.
  - apply H2; [right; right; reflexivity | reflexivity | discriminate].
  - apply H3; left; simpl; intros [E|[]]; discriminate.
Defined.

(** X7: the loop stops at the first account it cannot handle (not a dict:
    "'<type>' object has no attribute 'get'"; a token that is not a
    string: "... no attribute 'strip'"): it raises that error after the
    effects of the accounts before it, and the accounts after it are never
    looked at.  The accounts before it are ones the loop always gets
    through: a blank token, a header value [requests] rejects, or one
    [http.client] sends. *)
Theorem loop_stops_at_bad_account rt w pre a post h e :
  Forall (fun x => account_safe x = true) pre -> loop_error a = Some e ->
  exists d, run_accounts rt w (pre ++ a :: post) h = (d, Exc e) /\
            fst (run_accounts rt w pre h) = d.
Proof.
  intros Hpre Ha. revert h. induction Hpre as [|x pre' Hx _ IH]; intros h.
  - exists []. split; [|reflexivity].
    apply run_accounts_cons_exc. apply process_account_loop_error. exact Ha.
  - destruct (process_account_safe rt w x h Hx) as (d1 & m & Hp).
    destruct (IH (h ++ d1)%list) as (d & Hr & Hf).
    exists (d1 ++ d)%list. simpl app.
    rewrite (run_accounts_cons _ _ _ _ _ _ _ Hp), Hr.
    split; [reflexivity|].
    rewrite (run_accounts_cons _ _ _ _ _ _ _ Hp).
    destruct (run_accounts rt w pre' (h ++ d1)%list) as [d2 r2]. simpl in Hf |- *.
    rewrite Hf. reflexivity.
Qed.

Lemma loop_stops_at_bad_account_witness :
  let w := mk_world (env_from []) net_ok 0 in
  let pre := [JDict [("name", JStr "a"); ("token", JStr "k1")]] in
  Forall (fun x => account_safe x = true) pre /\
  loop_error (JDict [("name", JStr "b"); ("token", JNull)]) =
    Some "'NoneType' object has no attribute 'strip'" /\
  run_accounts rt0 w
    (pre ++ JDict [("name", JStr "b"); ("token", JNull)] ::
            [JDict [("name", JStr "c"); ("token", JStr "k2")]]) [] =
    ([ELog Info ("🔍 正在检查账户: " ++ "a"); EGet koyeb_url (koyeb_headers "k1") 30; ESleep 5],
     Exc "'NoneType' object has no attribute 'strip'").
Proof.
  intros w pre.
  assert (H1 : Forall (fun x => account_safe x = true) pre)
    by (constructor; [vm_compute; reflexivity | constructor]).
  assert (H2 : loop_error (JDict [("name", JStr "b"); ("token", JNull)]) =
                 Some "'NoneType' object has no attribute 'strip'") by reflexivity.
  refine (conj H1 (conj H2 _)).
  destruct (loop_stops_at_bad_account rt0 w pre _
              [JDict [("name", JStr "c"); ("token", JStr "k2")]] [] _ H1 H2) as (d & Hr & Hf).
  rewrite Hr. f_equal. rewrite <- Hf. vm_compute. reflexivity.
Defined.

(** X8: when the loop raises, the run sends no summary: the checks already
    made are lost, the error line is logged and handed to
    [send_tg_message], and it is the only message POSTed: once when
    Telegram is configured and the chat id and the line encode to UTF-8,
    never otherwise. *)
Theorem loop_error_replaces_summary jl rt w h s accounts d e :
  getenv w "KOYEB_ACCOUNTS" = Some s -> s <> "" -> jl s = Loaded (JList accounts) ->
  run_accounts rt w accounts h = (d, Exc e) ->
  let line := error_message e in
  main_body jl rt w h = (d, Exc e) /\
  main jl rt w h =
    ((d ++ ELog Error line :: fst (send_tg_message w line (h ++ d ++ [ELog Error line])))%list,
     snd (send_tg_message w line (h ++ d ++ [ELog Error line])%list)) /\
  count_posts (fst (main jl rt w h)) = (if tg_sendable w line then 1 else 0)%nat /\
  posted_texts (fst (main jl rt w h)) = (if tg_sendable w line then [line] else []).
Proof.
  intros Hs Hne Hj Hr line.
  assert (Hb : main_body jl rt w h = (d, Exc e)).
  { unfold main_body.
    assert (Hv : validate_env_variables jl w h = ([], Ok (JList accounts)))
      by exact (validate_env_variables_loaded _ _ _ _ _ Hs Hne Hj).
    assert (Htr : truthy (JList accounts) = true)
      by (destruct accounts; [simpl in Hr; discriminate | reflexivity]).
    rewrite (bind_ok _ _ _ _ _ Hv), !app_nil_r, Htr. simpl.
    rewrite (bind_ok _ _ _ [] accounts eq_refl). simpl. rewrite !app_nil_r.
    rewrite (bind_exc _ _ _ _ _ Hr). reflexivity. }
  assert (Hm : main jl rt w h =
    ((d ++ ELog Error line :: fst (send_tg_message w line (h ++ d ++ [ELog Error line])))%list,
     snd (send_tg_message w line (h ++ d ++ [ELog Error line])%list)))
    by (rewrite main_run, Hb; reflexivity).
  split; [exact Hb|]. split; [exact Hm|]. rewrite Hm. simpl fst.
  pose proof (run_accounts_no_post rt w accounts h) as Hn. rewrite Hr in Hn. simpl in Hn.
  rewrite split_one.
  assert (Hpre : Forall (fun ev => is_post ev = false) (d ++ [ELog Error line])%list)
    by (apply Forall_app; split; [exact Hn | repeat constructor]).
  split.
  - rewrite count_posts_app, (count_posts_none _ Hpre), send_tg_message_posts. reflexivity.
  - rewrite posted_texts_app, (posted_texts_none _ Hpre), send_tg_message_texts. reflexivity.
Qed.

Lemma loop_error_replaces_summary_witness :
  let w := mk_world (env_from (("KOYEB_ACCOUNTS", "x") :: tg_env)) net_ok 0 in
  let accounts := [JDict [("name", JStr "a"); ("token", JStr "k")]; JInt 3] in
  let d := [ELog Info ("🔍 正在检查账户: " ++ "a"); EGet koyeb_url (koyeb_headers "k") 30;
            ESleep 5] in
  getenv w "KOYEB_ACCOUNTS" = Some "x" /\ "x" <> "" /\
  (fun _ : string => Loaded (JList accounts)) "x" = Loaded (JList accounts) /\
  run_accounts rt0 w accounts [] = (d, Exc "'int' object has no attribute 'get'") /\
  posted_texts (fst (main (fun _ => Loaded (JList accounts)) rt0 w [])) =
    [error_message "'int' object has no attribute 'get'"].
Proof.
  intros w accounts d.
  assert (H1 : getenv w "KOYEB_ACCOUNTS" = Some "x") by reflexivity.
  assert (H2 : "x" <> "") by discriminate.
  assert (H3 : (fun _ : string => Loaded (JList accounts)) "x" = Loaded (JList accounts))
    by reflexivity.
  assert (H4 : run_accounts rt0 w accounts [] =
                 (d, Exc "'int' object has no attribute 'get'")) by (vm_compute; reflexivity).
  refine (conj H1 (conj H2 (conj H3 (conj H4 _)))).
  destruct (loop_error_replaces_summary _ rt0 w [] "x" accounts d _ H1 H2 H3 H4)
    as (_ & _ & _ & Hp).
  rewrite Hp. vm_compute. reflexivity.
Defined.

(** X9: a configuration that parses to a truthy value other than a list
    fails before any request: a JSON object or a string with "'str' object
    has no attribute 'get'" (the loop walks its keys or characters), a
    number or [true] with "'<type>' object is not iterable"; only that
    error line is handed to [send_tg_message]. *)
Theorem non_list_config_rejected jl rt w h s v :
  getenv w "KOYEB_ACCOUNTS" = Some s -> s <> "" -> jl s = Loaded v ->
  truthy v = true -> (forall l, v <> JList l) ->
  let e := match v with
           | JDict _ | JStr _ => "'str' object has no attribute 'get'"
           | _ => "'" ++ py_type_name v ++ "' object is not iterable"
           end in
  let line := error_message e in
  main_body jl rt w h = ([], Exc e) /\
  filter is_request (fst (main jl rt w h)) = [] /\
  count_posts (fst (main jl rt w h)) = (if tg_sendable w line then 1 else 0)%nat /\
  posted_texts (fst (main jl rt w h)) = (if tg_sendable w line then [line] else []).
Proof.
  intros Hs Hne Hj Ht Hl e line.
  assert (Hb : main_body jl rt w h = ([], Exc e)).
  { pose proof (validate_env_variables_loaded jl w h s v Hs Hne Hj) as Hv.
    unfold main_body. rewrite (bind_ok _ _ _ _ _ Hv), !app_nil_r, Ht. cbn [negb].
    destruct v as [|b|z|r|str|l|kvs]; try discriminate Ht.
    - reflexivity.
    - reflexivity.
    - reflexivity.
    - unfold of_result at 1. rewrite (bind_ok _ _ _ [] _ eq_refl).
      cbn [py_iter fst].
      destruct (utf8_chars str) as [|x rest] eqn:Hu.
      + exfalso. apply (utf8_chars_nonempty str); [|exact Hu].
        intros ->. discriminate Ht.
      + cbn [map]. rewrite (bind_exc _ _ _ _ _ (run_accounts_str _ _ _ _ _)). reflexivity.
    - exfalso. exact (Hl l eq_refl).
    - destruct kvs as [|[k x] kvs]; [discriminate Ht|].
      unfold of_result at 1. rewrite (bind_ok _ _ _ [] _ eq_refl).
      cbn [py_iter map fst].
      rewrite (bind_exc _ _ _ _ _ (run_accounts_str _ _ _ _ _)). reflexivity. }
  destruct (main_early_error_effects _ _ _ _ _ Hb) as (H1 & H2 & H3 & _).
  split; [exact Hb|]. exact (conj H1 (conj H2 H3)).
Qed.

Lemma non_list_config_rejected_witness :
  let w := mk_world (env_from (("KOYEB_ACCOUNTS", "x") :: tg_env)) net_ok 0 in
  let v := JFloat "1.5" in
  getenv w "KOYEB_ACCOUNTS" = Some "x" /\ "x" <> "" /\
  (fun _ : string => Loaded v) "x" = Loaded v /\ truthy v = true /\ (forall l, v <> JList l) /\
  posted_texts (fst (main (fun _ => Loaded v) rt0 w [])) =
    [error_message "'float' object is not iterable"].
Proof.
  intros w v.
  assert (H1 : getenv w "KOYEB_ACCOUNTS" = Some "x") by reflexivity.
  assert (H2 : "x" <> "") by discriminate.
  assert (H3 : (fun _ : string => Loaded v) "x" = Loaded v) by reflexivity.
  assert (H4 : truthy v = true) by reflexivity.
  assert (H5 : forall l, v <> JList l) by discriminate.
  refine (conj H1 (conj H2 (conj H3 (conj H4 (conj H5 _))))).
  destruct (non_list_config_rejected (fun _ => Loaded v) rt0 w [] "x" v H1 H2 H3 H4 H5)
    as (_ & _ & _ & Hp).
  rewrite Hp. vm_compute. reflexivity.
Defined.

(** X10: in a run whose loop completes, the GETs are exactly one per account
    with a non-blank token whose header value is sent, in account order,
    each carrying the stripped token, and the sleeps are one 5 s pause per
    account with a non-blank token (skipped accounts neither request nor
    pause). *)
Theorem completed_run_checks jl rt w h d :
  main_body jl rt w h = (d, Ok tt) ->
  exists s accounts,
    getenv w "KOYEB_ACCOUNTS" = Some s /\ jl s = Loaded (JList accounts) /\
    filter is_get (fst (main jl rt w h)) =
      map (fun t => EGet koyeb_url (koyeb_headers t) 30)
          (filter header_ok (checked_tokens accounts)) /\
    sleeps (fst (main jl rt w h)) = map (fun _ => 5) (checked_tokens accounts).
Proof.
  intros Hd. rewrite main_run.
  destruct (main_body_cases jl rt w h)
    as [[e [He _]]|(v & accounts & dl & ms & Hv & Ht & Hi & Hr & Hb)].
  { rewrite Hd in He. discriminate. }
  destruct (validate_env_variables_ok_inv _ _ _ _ Hv) as (s & Hs & _ & Hj).
  rewrite (completed_loop_is_list _ _ _ _ _ _ _ Ht Hi Hr) in Hj.
  exists s, accounts. split; [exact Hs|]. split; [exact Hj|].
  destruct (run_accounts_checks _ _ _ _ _ _ Hr) as [Hg Hsl].
  set (sm := build_summary (current_time w) ms) in Hb.
  set (h1 := (h ++ dl ++ [ELog Info done_log])%list) in Hb.
  pose proof (send_tg_message_no_get w sm h1) as G1.
  pose proof (send_tg_message_no_sleep w sm h1) as S1.
  destruct (send_tg_message w sm h1) as [ds rs]. simpl in Hb, G1, S1.
  rewrite Hb. destruct rs as [u|e]; simpl fst.
  - rewrite filter_app, sleeps_app, Hg, Hsl. simpl.
    rewrite (filter_none _ _ G1), S1, !app_nil_r. split; reflexivity.
  - rewrite filter_app, sleeps_app, filter_app, sleeps_app, Hg, Hsl. simpl.
    rewrite (filter_none _ _ G1), S1,
      (filter_none _ _ (send_tg_message_no_get w _ _)), send_tg_message_no_sleep, !app_nil_r.
    split; reflexivity.
Qed.

(** Accounts with tokens " k1 ", none, "a<LF>b" (header rejected by
    [requests]) and "k2". *)
Lemma completed_run_checks_witness :
  let w := mk_world (env_from [("KOYEB_ACCOUNTS", "x")]) net_ok 0 in
  let jl := fun _ : string =>
    Loaded (JList [JDict [("name", JStr "a"); ("token", JStr " k1 ")];
                   JDict [("name", JStr "b")];
                   JDict [("name", JStr "c"); ("token", JStr ("a" ++ nl ++ "b"))];
                   JDict [("name", JStr "d"); ("token", JStr "k2")]]) in
  main_body jl rt0 w [] = (fst (main_body jl rt0 w []), Ok tt) /\
  filter is_get (fst (main jl rt0 w [])) =
    [EGet koyeb_url (koyeb_headers "k1") 30; EGet koyeb_url (koyeb_headers "k2") 30] /\
  sleeps (fst (main jl rt0 w [])) = [5; 5; 5].
Proof.
  intros w jl.
  assert (Hd : main_body jl rt0 w [] = (fst (main_body jl rt0 w []), Ok tt))
    by (vm_compute; reflexivity).
  refine (conj Hd _).
  destruct (completed_run_checks jl rt0 w [] _ Hd) as (s & accounts & Hs & Hj & Hg & Hsl).
  rewrite Hg, Hsl. simpl in Hs. inversion Hs; subst. simpl in Hj. inversion Hj; subst.
  split; vm_compute; reflexivity.
Defined.

(** X11: every request of a run goes where it should: each GET is the token
    check against the Koyeb API with a 30 s timeout and the Koyeb header
    set, each connection is to the Koyeb API with a 30 s timeout, and each
    POST goes to [sendMessage] of the configured bot, with the configured
    chat id, Markdown mode and a 30 s timeout. *)
Theorem main_request_targets jl rt w h : Forall (request_ok w) (fst (main jl rt w h)).
Proof.
  revert h. unfold main. apply emits_try_except.
  - unfold main_body. apply emits_bind.
    + intros h. rewrite validate_env_variables_silent. constructor.
    + intros v. destruct (negb (truthy v)); [apply emits_raise|].
      apply emits_bind; [apply emits_of_result | intros accounts].
      apply emits_bind; [apply run_accounts_requests | intros ms].
      apply emits_bind; [apply emits_emit; exact I | intros _].
      apply send_tg_message_requests.
  - intros e. apply emits_bind; [apply emits_emit; exact I | intros _].
    apply send_tg_message_requests.
Qed.

(** X12: an account whose stripped token gives a header value that
    [requests] rejects (a leading whitespace character cannot occur after
    [strip], so: a CR or LF inside) is not requested: [InvalidHeader] is a
    [RequestException], so the iteration logs the check line, sleeps 5 s
    and yields a failure entry carrying the [InvalidHeader] text. *)
Theorem invalid_header_account rt w kvs t h :
  dict_get kvs "token" (JStr "") = JStr t -> strip t <> "" ->
  header_value_valid ("Bearer " ++ strip t) = false ->
  let name := account_name rt kvs in
  process_account rt w (JDict kvs) h =
    ([ELog Info ("🔍 正在检查账户: " ++ name); ESleep 5],
     Ok (failure_entry name (invalid_header_msg rt ("Bearer " ++ strip t)))).
Proof.
  intros Ht Hne Hv name.
  rewrite (process_account_check rt w kvs t h Ht Hne). cbv zeta. fold name.
  destruct (check_koyeb_with_token_run rt w name (strip t)
              (h ++ [ELog Info ("🔍 正在检查账户: " ++ name)])%list Hne)
    as [[_ ->]|[(err & Hv' & _)|[Hok _]]].
  - reflexivity.
  - rewrite Hv in Hv'. discriminate.
  - unfold header_ok in Hok. rewrite Hv in Hok. discriminate.
Qed.

Lemma invalid_header_account_witness :
  let kvs := [("name", JStr "c"); ("token", JStr ("a" ++ nl ++ "b"))] in
  dict_get kvs "token" (JStr "") = JStr ("a" ++ nl ++ "b") /\
  strip ("a" ++ nl ++ "b") <> "" /\
  header_value_valid ("Bearer " ++ strip ("a" ++ nl ++ "b")) = false /\
  fst (process_account rt0 (mk_world (env_from []) net_ok 0) (JDict kvs) []) =
    [ELog Info ("🔍 正在检查账户: " ++ "c"); ESleep 5].
Proof.
  intros kvs.
  assert (H1 : dict_get kvs "token" (JStr "") = JStr ("a" ++ nl ++ "b")) by reflexivity.
  assert (H2 : strip ("a" ++ nl ++ "b") <> "") by (vm_compute; discriminate).
  assert (H3 : header_value_valid ("Bearer " ++ strip ("a" ++ nl ++ "b")) = false)
    by (vm_compute; reflexivity).
  refine (conj H1 (conj H2 (conj H3 _))).
  rewrite (invalid_header_account rt0 (mk_world (env_from []) net_ok 0) kvs _ [] H1 H2 H3).
  reflexivity.
Defined.

(** X13: an account whose header value [requests] accepts but
    [http.client] cannot send (a character outside latin-1, or a line break
    not followed by a space or tab) opens a connection and sends no GET;
    if the connection is made, [putheader] raises that error, which is not
    a [RequestException]: it escapes the check and ends the loop, with no
    sleep; if connecting times out or fails, the iteration yields a
    failure entry ("请求超时" or the error's text) and sleeps 5 s. *)
Theorem unsendable_header_account rt w kvs t h err :
  dict_get kvs "token" (JStr "") = JStr t -> strip t <> "" ->
  header_value_valid ("Bearer " ++ strip t) = true ->
  putheader_error ("Bearer " ++ strip t) = Some err ->
  let name := account_name rt kvs in
  let log := ELog Info ("🔍 正在检查账户: " ++ name) in
  let conn := EConnect koyeb_url 30 in
  process_account rt w (JDict kvs) h =
    match net w (h ++ [log; conn])%list with
    | HResp _ _ _ => ([log; conn], Exc err)
    | HTimeout _ => ([log; conn; ESleep 5], Ok (failure_entry name "请求超时"))
    | HReqErr m => ([log; conn; ESleep 5], Ok (failure_entry name m))
    end.
Proof.
  intros Ht Hne Hv Hp name log conn.
  rewrite (process_account_check rt w kvs t h Ht Hne). cbv zeta. fold name. fold log.
  destruct (check_koyeb_with_token_run rt w name (strip t) (h ++ [log])%list Hne)
    as [[Hv' _]|[(err' & _ & Hp' & Hc)|[Hok _]]].
  - rewrite Hv in Hv'. discriminate.
  - rewrite Hp in Hp'. inversion Hp'; subst err'. rewrite Hc. fold conn.
    rewrite <- app_assoc. cbn [app].
    destruct (net w (h ++ [log; conn])%list); reflexivity.
  - unfold header_ok in Hok. rewrite Hp, andb_false_r in Hok. discriminate.
Qed.

(** The token "中文" is outside latin-1. *)
Lemma unsendable_header_account_witness :
  let kvs := [("name", JStr "e"); ("token", JStr "中文")] in
  let err := "'latin-1' codec can't encode characters in position 7-8: ordinal not in range(256)" in
  dict_get kvs "token" (JStr "") = JStr "中文" /\ strip "中文" <> "" /\
  header_value_valid ("Bearer " ++ strip "中文") = true /\
  putheader_error ("Bearer " ++ strip "中文") = Some err /\
  process_account rt0 (mk_world (env_from []) net_ok 0) (JDict kvs) [] =
    ([ELog Info ("🔍 正在检查账户: " ++ "e"); EConnect koyeb_url 30], Exc err).
Proof.
  intros kvs err.
  assert (H1 : dict_get kvs "token" (JStr "") = JStr "中文") by reflexivity.
  assert (H2 : strip "中文" <> "") by (vm_compute; discriminate).
  assert (H3 : header_value_valid ("Bearer " ++ strip "中文") = true)
    by (vm_compute; reflexivity).
  assert (H4 : putheader_error ("Bearer " ++ strip "中文") = Some err)
    by (vm_compute; reflexivity).
  refine (conj H1 (conj H2 (conj H3 (conj H4 _)))).
  rewrite (unsendable_header_account rt0 (mk_world (env_from []) net_ok 0) kvs _ [] err
             H1 H2 H3 H4).
  reflexivity.
Defined.
